(** * BootlegCraft: the block sandbox of [main_fixed_v2.py]

    A shallow embedding of the game object [MyGame]: the scene graph of
    block placeholders with their collision nodes and ['owner'] tags, the
    camera, the key map, the ray-intersection queue, and the handlers that
    the program binds to input events and to the per-frame task.

    Numbers.  The program computes with Python and engine floats; here they
    are exact rationals ([Q]), so every statement below is about the
    arithmetic the code writes down, not about rounding. *)

From Stdlib Require Import Reals Qreals Lra.
From Stdlib Require Import QArith Lqa.
From stdpp Require Import gmap strings list sorting pretty.

Open Scope Q_scope.

(** ** Rational helpers *)

(** Python's [a < b] on numbers. *)
Definition Qltb (a b : Q) : bool :=
  match a ?= b with Lt => true | _ => false end.

(** Python's two-argument [max(a, b)]: the first argument unless the second
    is strictly larger; [min(a, b)]: the first unless the second is strictly
    smaller. *)
Definition py_max (a b : Q) : Q := if Qltb a b then b else a.
Definition py_min (a b : Q) : Q := if Qltb b a then b else a.

#[global] Instance Q_eq_dec : EqDecision Q.
Proof. solve_decision. Defined.

(** ** Vectors ([LVecBase3]) *)

Record Vec3 := V3 { vx : Q; vy : Q; vz : Q }.

#[global] Instance Vec3_eq_dec : EqDecision Vec3.
Proof. solve_decision. Defined.

Definition vadd (a b : Vec3) : Vec3 :=
  V3 (vx a + vx b) (vy a + vy b) (vz a + vz b).
Definition vsub (a b : Vec3) : Vec3 :=
  V3 (vx a - vx b) (vy a - vy b) (vz a - vz b).
Definition vscale (a : Vec3) (k : Q) : Vec3 :=
  V3 (vx a * k) (vy a * k) (vz a * k).
Definition vdot (a b : Vec3) : Q :=
  vx a * vx b + vy a * vy b + vz a * vz b.

(** Equality of positions as numbers (the same point, whatever fraction
    denotes each coordinate). *)
Definition veqb (a b : Vec3) : bool :=
  Qeq_bool (vx a) (vx b) && Qeq_bool (vy a) (vy b) && Qeq_bool (vz a) (vz b).

(** [a.getDistance(b)] is the Euclidean length of the offset between the two
    node origins.  The program only ever compares it with a positive literal,
    [getDistance(..) < r]; that comparison is decided exactly on the squares. *)
Definition distance_sq (a b : Vec3) : Q := vdot (vsub a b) (vsub a b).
Definition distance_lt (a b : Vec3) (r : Q) : bool :=
  Qltb (distance_sq a b) (r * r).

(** ** Block types and the scene graph *)

(** The keys of [blockModels]. *)
Inductive BlockType := grass | dirt | sand | stone.

#[global] Instance BlockType_eq_dec : EqDecision BlockType.
Proof. solve_decision. Defined.

(** Object identity of a scene node. *)
Definition NodeId := nat.

(** A block placeholder under [render]: its position, its orientation, the
    model instanced to it (named by its [blockModels] key) and the collision
    node attached below it. *)
Record BlockNode := {
  node_pos : Vec3;
  node_hpr : Vec3;
  node_model : BlockType;
  node_collider : NodeId;
}.

(** The part of the scene the program itself manipulates: [render]'s block
    children in attach order, and the ['owner'] Python tag carried by each
    collision node. *)
Record SceneGraph := {
  next_node : NodeId;
  render : list (NodeId * BlockNode);
  owner_tag : gmap NodeId NodeId;
}.

Definition empty_scene : SceneGraph :=
  {| next_node := 0%nat; render := []; owner_tag := ∅ |}.

(** [render.attachNewNode(..)] for a placeholder together with everything
    [createNewBlock] hangs on it. *)
Definition attachBlock (x y z : Q) (blockType : BlockType) (sg : SceneGraph)
  : SceneGraph :=
  let newBlockNode := next_node sg in
  let collider := S newBlockNode in
  let hpr := if decide (blockType = grass) then V3 0 90 0 else V3 0 0 0 in
  {| next_node := S collider;
     render := render sg ++
       [(newBlockNode,
         {| node_pos := V3 x y z; node_hpr := hpr;
            node_model := blockType; node_collider := collider |})];
     owner_tag := <[collider := newBlockNode]> (owner_tag sg) |}.

(** [NodePath.removeNode]: the node leaves the scene with its subtree. *)
Definition removeNode (n : NodeId) (sg : SceneGraph) : SceneGraph :=
  {| next_node := next_node sg;
     render := filter (λ nb, nb.1 ≠ n) (render sg);
     owner_tag := owner_tag sg |}.

Definition clearPythonTag (collider : NodeId) (sg : SceneGraph) : SceneGraph :=
  {| next_node := next_node sg;
     render := render sg;
     owner_tag := delete collider (owner_tag sg) |}.

Definition getPythonTag (collider : NodeId) (sg : SceneGraph) : option NodeId :=
  owner_tag sg !! collider.

Definition find_node (n : NodeId) (sg : SceneGraph) : option BlockNode :=
  (λ r, r.2.2) <$> list_find (λ nb, nb.1 = n) (render sg).

(** ** Exceptions

    A handler either returns the new state of the game object or raises.
    Nothing in the program catches an exception, so a raised one leaves the
    task manager's loop and ends the run. *)

Inductive Exn := KeyError | AttributeError | AssertionError | SystemExit.

Inductive result (A : Type) := Ok (a : A) | Raise (e : Exn).
Arguments Ok {A} a.
Arguments Raise {A} e.

Definition bind {A B} (m : result A) (f : A → result B) : result B :=
  match m with Ok a => f a | Raise e => Raise e end.

Notation "x <- m ;; k" := (bind m (λ x, k))
  (at level 100, m at next level, right associativity).

#[global] Instance result_fmap : FMap result := λ A B f m,
  match m with Ok a => Ok (f a) | Raise e => Raise e end.

Definition or_raise {A} (e : Exn) (o : option A) : result A :=
  match o with Some a => Ok a | None => Raise e end.

(** ** The game object *)

(** The outside library the frame task calls: [math.pi], [math.sin] and
    [math.cos] on floats. *)
Record MathLib := { pi : Q; sin : Q → Q; cos : Q → Q }.

Record Camera := {
  cam_pos : Vec3;
  cam_h : Q;
  cam_p : Q;
  cam_r : Q;
}.

Inductive MouseMode := M_absolute | M_relative | M_confined.

(** The window: where the pointer is ([win.getPointer(0)]) and the
    properties last requested. *)
Record Window := {
  pointer_x : Q;
  pointer_y : Q;
  cursor_hidden : bool;
  mouse_mode : MouseMode;
}.

(** One entry of the [CollisionHandlerQueue]: the collision node the ray
    ran into, the normal [getSurfaceNormal] reports for it in that node's
    space, and the key [sortEntries] orders by (how far along the ray the
    hit lies). *)
Record CollisionEntry := {
  into_node : NodeId;
  surface_normal : Vec3;
  entry_dist : Q;
}.

(** The engine's clock.  Its [getDt()] reading for a frame is the frame's
    [dt] input. *)
Inductive ClockObject := TheGlobalClock.

(** The attributes of the game object that the handlers read or write.
    [globalClock] is the instance attribute [self.globalClock], [None] while
    the object has no such attribute: no statement of the program assigns it,
    and the engine's base class publishes its clock as a built-in name, not
    as an attribute of the object. *)
Record MyGame := {
  selectedBlockType : BlockType;
  menuActive : bool;
  cameraSwingActivated : bool;
  keyMap : gmap string bool;
  lastMouseX : Q;
  lastMouseY : Q;
  cameraSwingFactor : option Q;
  camera : Camera;
  scene : SceneGraph;
  rayQueue : list CollisionEntry;
  win : Window;
  menuFrame_hidden : bool;
  globalClock : option ClockObject;
}.

Definition set_selectedBlockType (v : BlockType) (g : MyGame) : MyGame :=
  {| selectedBlockType := v; menuActive := menuActive g;
     cameraSwingActivated := cameraSwingActivated g; keyMap := keyMap g;
     lastMouseX := lastMouseX g; lastMouseY := lastMouseY g;
     cameraSwingFactor := cameraSwingFactor g; camera := camera g;
     scene := scene g; rayQueue := rayQueue g; win := win g;
     menuFrame_hidden := menuFrame_hidden g;
     globalClock := globalClock g |}.

Definition set_menuActive (v : bool) (g : MyGame) : MyGame :=
  {| selectedBlockType := selectedBlockType g; menuActive := v;
     cameraSwingActivated := cameraSwingActivated g; keyMap := keyMap g;
     lastMouseX := lastMouseX g; lastMouseY := lastMouseY g;
     cameraSwingFactor := cameraSwingFactor g; camera := camera g;
     scene := scene g; rayQueue := rayQueue g; win := win g;
     menuFrame_hidden := menuFrame_hidden g;
     globalClock := globalClock g |}.

Definition set_cameraSwingActivated (v : bool) (g : MyGame) : MyGame :=
  {| selectedBlockType := selectedBlockType g; menuActive := menuActive g;
     cameraSwingActivated := v; keyMap := keyMap g;
     lastMouseX := lastMouseX g; lastMouseY := lastMouseY g;
     cameraSwingFactor := cameraSwingFactor g; camera := camera g;
     scene := scene g; rayQueue := rayQueue g; win := win g;
     menuFrame_hidden := menuFrame_hidden g;
     globalClock := globalClock g |}.

Definition set_keyMap (v : gmap string bool) (g : MyGame) : MyGame :=
  {| selectedBlockType := selectedBlockType g; menuActive := menuActive g;
     cameraSwingActivated := cameraSwingActivated g; keyMap := v;
     lastMouseX := lastMouseX g; lastMouseY := lastMouseY g;
     cameraSwingFactor := cameraSwingFactor g; camera := camera g;
     scene := scene g; rayQueue := rayQueue g; win := win g;
     menuFrame_hidden := menuFrame_hidden g;
     globalClock := globalClock g |}.

Definition set_lastMouse (x y : Q) (g : MyGame) : MyGame :=
  {| selectedBlockType := selectedBlockType g; menuActive := menuActive g;
     cameraSwingActivated := cameraSwingActivated g; keyMap := keyMap g;
     lastMouseX := x; lastMouseY := y;
     cameraSwingFactor := cameraSwingFactor g; camera := camera g;
     scene := scene g; rayQueue := rayQueue g; win := win g;
     menuFrame_hidden := menuFrame_hidden g;
     globalClock := globalClock g |}.

Definition set_cameraSwingFactor (v : Q) (g : MyGame) : MyGame :=
  {| selectedBlockType := selectedBlockType g; menuActive := menuActive g;
     cameraSwingActivated := cameraSwingActivated g; keyMap := keyMap g;
     lastMouseX := lastMouseX g; lastMouseY := lastMouseY g;
     cameraSwingFactor := Some v; camera := camera g;
     scene := scene g; rayQueue := rayQueue g; win := win g;
     menuFrame_hidden := menuFrame_hidden g;
     globalClock := globalClock g |}.

Definition set_camera (v : Camera) (g : MyGame) : MyGame :=
  {| selectedBlockType := selectedBlockType g; menuActive := menuActive g;
     cameraSwingActivated := cameraSwingActivated g; keyMap := keyMap g;
     lastMouseX := lastMouseX g; lastMouseY := lastMouseY g;
     cameraSwingFactor := cameraSwingFactor g; camera := v;
     scene := scene g; rayQueue := rayQueue g; win := win g;
     menuFrame_hidden := menuFrame_hidden g;
     globalClock := globalClock g |}.

Definition set_scene (v : SceneGraph) (g : MyGame) : MyGame :=
  {| selectedBlockType := selectedBlockType g; menuActive := menuActive g;
     cameraSwingActivated := cameraSwingActivated g; keyMap := keyMap g;
     lastMouseX := lastMouseX g; lastMouseY := lastMouseY g;
     cameraSwingFactor := cameraSwingFactor g; camera := camera g;
     scene := v; rayQueue := rayQueue g; win := win g;
     menuFrame_hidden := menuFrame_hidden g;
     globalClock := globalClock g |}.

Definition set_rayQueue (v : list CollisionEntry) (g : MyGame) : MyGame :=
  {| selectedBlockType := selectedBlockType g; menuActive := menuActive g;
     cameraSwingActivated := cameraSwingActivated g; keyMap := keyMap g;
     lastMouseX := lastMouseX g; lastMouseY := lastMouseY g;
     cameraSwingFactor := cameraSwingFactor g; camera := camera g;
     scene := scene g; rayQueue := v; win := win g;
     menuFrame_hidden := menuFrame_hidden g;
     globalClock := globalClock g |}.

Definition set_win (v : Window) (g : MyGame) : MyGame :=
  {| selectedBlockType := selectedBlockType g; menuActive := menuActive g;
     cameraSwingActivated := cameraSwingActivated g; keyMap := keyMap g;
     lastMouseX := lastMouseX g; lastMouseY := lastMouseY g;
     cameraSwingFactor := cameraSwingFactor g; camera := camera g;
     scene := scene g; rayQueue := rayQueue g; win := v;
     menuFrame_hidden := menuFrame_hidden g;
     globalClock := globalClock g |}.

Definition set_menuFrame_hidden (v : bool) (g : MyGame) : MyGame :=
  {| selectedBlockType := selectedBlockType g; menuActive := menuActive g;
     cameraSwingActivated := cameraSwingActivated g; keyMap := keyMap g;
     lastMouseX := lastMouseX g; lastMouseY := lastMouseY g;
     cameraSwingFactor := cameraSwingFactor g; camera := camera g;
     scene := scene g; rayQueue := rayQueue g; win := win g;
     menuFrame_hidden := v;
     globalClock := globalClock g |}.

(** [win.requestProperties] with the cursor and mouse-mode properties set. *)
Definition requestProperties (hidden : bool) (mode : MouseMode) (w : Window)
  : Window :=
  {| pointer_x := pointer_x w; pointer_y := pointer_y w;
     cursor_hidden := hidden; mouse_mode := mode |}.

Definition setPos (p : Vec3) (c : Camera) : Camera :=
  {| cam_pos := p; cam_h := cam_h c; cam_p := cam_p c; cam_r := cam_r c |}.

Definition setHpr (h p r : Q) (c : Camera) : Camera :=
  {| cam_pos := cam_pos c; cam_h := h; cam_p := p; cam_r := r |}.

(** ** The methods of [MyGame] *)

Definition degToRad (M : MathLib) (degrees : Q) : Q :=
  degrees * (pi M / 180).

(** [createNewBlock]: a placeholder at [(x, y, z)] with the model of
    [blockType] instanced to it, turned by [setHpr(0, 90, 0)] when it is
    grass, and a collision box whose node is tagged with its owner. *)
Definition createNewBlock (x y z : Q) (blockType : BlockType) (self : MyGame)
  : MyGame :=
  set_scene (attachBlock x y z blockType (scene self)) self.

(** Python's [range(n)]. *)
Definition range (n : Z) : list Z := seqZ 0 n.

Definition generateTerrain (self : MyGame) : MyGame :=
  foldl (λ self z,
    foldl (λ self y,
      foldl (λ self x,
        createNewBlock
          (inject_Z (x * 2 - 20))
          (inject_Z (y * 2 - 20))
          (inject_Z (- z * 2))
          (if (z =? 0)%Z then grass else dirt)
          self)
        self (range 20))
      self (range 20))
    self (range 10).

Definition updateKeyMap (key : string) (value : bool) (self : MyGame)
  : MyGame :=
  set_keyMap (<[key := value]> (keyMap self)) self.

Definition setSelectedBlockType (blockType : BlockType) (self : MyGame)
  : MyGame :=
  set_selectedBlockType blockType self.

Definition captureMouse (self : MyGame) : MyGame :=
  let self := set_cameraSwingActivated true self in
  let self := set_lastMouse (pointer_x (win self)) (pointer_y (win self)) self in
  set_win (requestProperties true M_confined (win self)) self.

Definition releaseMouse (self : MyGame) : MyGame :=
  let self := set_cameraSwingActivated false self in
  set_win (requestProperties false M_absolute (win self)) self.

Definition toggleMenu (self : MyGame) : MyGame :=
  if menuActive self then
    let self := set_menuFrame_hidden true self in
    let self := set_menuActive false self in
    captureMouse self
  else
    let self := set_menuFrame_hidden false self in
    let self := set_menuActive true self in
    releaseMouse self.

(** [userExit] ends the program through [sys.exit]. *)
Definition exitGame (self : MyGame) : result MyGame := Raise SystemExit.

(** [rayQueue.sortEntries()]: nearest hit first. *)
Definition entry_le (a b : CollisionEntry) : Prop :=
  entry_dist a <= entry_dist b.

#[global] Instance entry_le_dec a b : Decision (entry_le a b).
Proof.
  unfold entry_le.
  destruct (Qlt_le_dec (entry_dist b) (entry_dist a)) as [H | H];
    [right; apply Qlt_not_le, H | left; exact H].
Defined.

Definition sortEntries (q : list CollisionEntry) : list CollisionEntry :=
  merge_sort entry_le q.

(** [self.keyMap[key]]. *)
Definition keyHeld (key : string) (self : MyGame) : result bool :=
  or_raise KeyError (keyMap self !! key).

(** The frame task.  With the menu closed its first statement reads the
    attribute [self.globalClock], which raises [AttributeError] when the
    object has none; [dt] is what that clock's [getDt()] gives for this
    frame. *)
Definition update (M : MathLib) (dt : Q) (self : MyGame) : result MyGame :=
  if menuActive self then Ok self else
  clock <- or_raise AttributeError (globalClock self);;
  let playerMoveSpeed := 10 in
  let H := cam_h (camera self) in
  let x_movement := 0 in
  let y_movement := 0 in
  let z_movement := 0 in
  forward <- keyHeld "forward" self;;
  let x_movement :=
    if forward then x_movement - dt * playerMoveSpeed * sin M (degToRad M H)
    else x_movement in
  let y_movement :=
    if forward then y_movement + dt * playerMoveSpeed * cos M (degToRad M H)
    else y_movement in
  backward <- keyHeld "backward" self;;
  let x_movement :=
    if backward then x_movement + dt * playerMoveSpeed * sin M (degToRad M H)
    else x_movement in
  let y_movement :=
    if backward then y_movement - dt * playerMoveSpeed * cos M (degToRad M H)
    else y_movement in
  left <- keyHeld "left" self;;
  let x_movement :=
    if left then x_movement - dt * playerMoveSpeed * cos M (degToRad M H)
    else x_movement in
  let y_movement :=
    if left then y_movement - dt * playerMoveSpeed * sin M (degToRad M H)
    else y_movement in
  right <- keyHeld "right" self;;
  let x_movement :=
    if right then x_movement + dt * playerMoveSpeed * cos M (degToRad M H)
    else x_movement in
  let y_movement :=
    if right then y_movement + dt * playerMoveSpeed * sin M (degToRad M H)
    else y_movement in
  up <- keyHeld "up" self;;
  let z_movement :=
    if up then z_movement + dt * playerMoveSpeed else z_movement in
  down <- keyHeld "down" self;;
  let z_movement :=
    if down then z_movement - dt * playerMoveSpeed else z_movement in
  let self :=
    set_camera
      (setPos
         (V3 (vx (cam_pos (camera self)) + x_movement)
             (vy (cam_pos (camera self)) + y_movement)
             (vz (cam_pos (camera self)) + z_movement))
         (camera self))
      self in
  if cameraSwingActivated self then
    let mouseX := pointer_x (win self) in
    let mouseY := pointer_y (win self) in
    let mouseChangeX := mouseX - lastMouseX self in
    let mouseChangeY := mouseY - lastMouseY self in
    let self := set_cameraSwingFactor 10 self in
    let factor := 10 in
    let currentH := cam_h (camera self) in
    let currentP := cam_p (camera self) in
    let self :=
      set_camera
        (setHpr
           (currentH - mouseChangeX * dt * factor)
           (py_min 90 (py_max (-90) (currentP - mouseChangeY * dt * factor)))
           0
           (camera self))
        self in
    Ok (set_lastMouse mouseX mouseY self)
  else Ok self.

(** [rayQueue.getEntry(i)]. *)
Definition getEntry (i : nat) (self : MyGame) : result CollisionEntry :=
  or_raise AssertionError (rayQueue self !! i).

(** [hitObject.getDistance(self.camera) < r] and [hitObject.getPos()], for
    the node path stored in an ['owner'] tag. *)
Definition nodePos (hitObject : NodeId) (self : MyGame) : result Vec3 :=
  or_raise AssertionError (node_pos <$> find_node hitObject (scene self)).

Definition removeBlock (self : MyGame) : result MyGame :=
  if decide (0 < length (rayQueue self))%nat then
    let self := set_rayQueue (sortEntries (rayQueue self)) self in
    rayHit <- getEntry 0 self;;
    let hitNodePath := into_node rayHit in
    hitObject <- or_raise AttributeError (getPythonTag hitNodePath (scene self));;
    hitPos <- nodePos hitObject self;;
    if distance_lt hitPos (cam_pos (camera self)) 12 then
      let self := set_scene (clearPythonTag hitNodePath (scene self)) self in
      Ok (set_scene (removeNode hitObject (scene self)) self)
    else Ok self
  else Ok self.

Definition placeBlock (self : MyGame) : result MyGame :=
  if decide (0 < length (rayQueue self))%nat then
    let self := set_rayQueue (sortEntries (rayQueue self)) self in
    rayHit <- getEntry 0 self;;
    let hitNodePath := into_node rayHit in
    let normal := surface_normal rayHit in
    hitObject <- or_raise AttributeError (getPythonTag hitNodePath (scene self));;
    hitBlockPos <- nodePos hitObject self;;
    if distance_lt hitBlockPos (cam_pos (camera self)) 14 then
      let newBlockPos := vadd hitBlockPos (vscale normal 2) in
      Ok (createNewBlock (vx newBlockPos) (vy newBlockPos) (vz newBlockPos)
            (selectedBlockType self) self)
    else Ok self
  else Ok self.

Definition handleLeftClick (self : MyGame) : result MyGame :=
  let self := captureMouse self in
  removeBlock self.

(** ** Event bindings

    [setupControls] fills the table of [accept]ed events; the messenger
    calls the bound method when the event is thrown, and ignores an event
    nobody accepted. *)

Definition Handler : Type := MyGame → result MyGame.

Definition accept (event : string) (method : Handler)
    (bindings : gmap string Handler) : gmap string Handler :=
  <[event := method]> bindings.

(** Python's [enumerate(l, start)] and [str(i)]. *)
Definition enumerate {A} (l : list A) (start : nat) : list (nat * A) :=
  zip (seq start (length l)) l.
Definition str (i : nat) : string := pretty i.

Definition setupControls : gmap string Handler :=
  let b := accept "escape" (λ self, Ok (toggleMenu self)) ∅ in
  let b := accept "mouse1" placeBlock b in
  let b := accept "mouse3" handleLeftClick b in
  let b :=
    foldl (λ b ka,
      let key := ka.1 in
      let action := ka.2 in
      let b := accept key (λ self, Ok (updateKeyMap action true self)) b in
      accept (key +:+ "-up") (λ self, Ok (updateKeyMap action false self)) b)
      b
      [("w", "forward"); ("s", "backward");
       ("a", "left"); ("d", "right");
       ("space", "up"); ("lshift", "down")] in
  foldl (λ b ib,
    accept (str ib.1) (λ self, Ok (setSelectedBlockType ib.2 self)) b)
    b (enumerate [grass; dirt; sand; stone] 1).

Definition throw (event : string) (self : MyGame) : result MyGame :=
  match setupControls !! event with
  | Some method => method self
  | None => Ok self
  end.

(** ** Start-up and the run loop *)

(** [setupCamera]: the camera goes to [(0, 0, 3)] and a fresh, empty
    intersection queue is installed. *)
Definition setupCamera (self : MyGame) : MyGame :=
  let self := set_camera (setPos (V3 0 0 3) (camera self)) self in
  set_rayQueue [] self.

(** The game object as [__init__] has it before it calls any set-up method,
    with the window's pointer at [(px, py)] and nothing in the scene yet.
    [lastMouseX] and [lastMouseY] are not assigned until [captureMouse] runs
    (which [__init__] does before any frame); until then they hold 0 here. *)
Definition fresh (px py : Q) : MyGame :=
  {| selectedBlockType := grass;
     menuActive := false;
     cameraSwingActivated := false;
     keyMap := {[ "forward" := false; "backward" := false;
                  "left" := false; "right" := false;
                  "up" := false; "down" := false ]};
     lastMouseX := 0; lastMouseY := 0;
     cameraSwingFactor := None;
     camera := {| cam_pos := V3 0 0 0; cam_h := 0; cam_p := 0; cam_r := 0 |};
     scene := empty_scene;
     rayQueue := [];
     win := {| pointer_x := px; pointer_y := py;
               cursor_hidden := false; mouse_mode := M_absolute |};
     menuFrame_hidden := true;
     globalClock := None |}.

(** [__init__].  Lights, sky box, cross-hair and the menu's buttons hold no
    state the handlers read. *)
Definition init (px py : Q) : MyGame :=
  let self := fresh px py in
  let self := generateTerrain self in
  let self := setupCamera self in
  captureMouse self.

(** What the engine feeds the program: a thrown event, a click on one of the
    two menu buttons, a frame of the [update] task, the pointer moving, and
    the collision traverser refilling the queue. *)
Inductive Input :=
  | Event (name : string)
  | ContinueButton
  | ExitButton
  | Frame (dt : Q)
  | PointerAt (x y : Q)
  | Traverse (entries : list CollisionEntry).

Definition movePointer (x y : Q) (w : Window) : Window :=
  {| pointer_x := x; pointer_y := y;
     cursor_hidden := cursor_hidden w; mouse_mode := mouse_mode w |}.

Definition step (M : MathLib) (i : Input) (self : MyGame) : result MyGame :=
  match i with
  | Event name => throw name self
  | ContinueButton => Ok (toggleMenu self)
  | ExitButton => exitGame self
  | Frame dt => update M dt self
  | PointerAt x y => Ok (set_win (movePointer x y (win self)) self)
  | Traverse entries => Ok (set_rayQueue entries self)
  end.

Fixpoint run (M : MathLib) (inputs : list Input) (self : MyGame)
  : result MyGame :=
  match inputs with
  | [] => Ok self
  | i :: inputs => self <- step M i self;; run M inputs self
  end.

(** ** Views of the world used in the statements *)

(** The blocks of the world as (position, type) pairs, in attach order. *)
Definition block_views (self : MyGame) : list (Vec3 * BlockType) :=
  (λ nb, (node_pos nb.2, node_model nb.2)) <$> render (scene self).

(** How many blocks sit at position [p]. *)
Definition blocks_at (p : Vec3) (self : MyGame) : nat :=
  length (filter (λ b, veqb b.1 p = true) (block_views self)).

(** The terrain as the specification words it: one block for every
    [z] in [0,10), [y] in [0,20), [x] in [0,20), at
    [(x*2-20, y*2-20, -z*2)], grass when [z = 0] and dirt otherwise. *)
Definition terrain_spec : list (Vec3 * BlockType) :=
  z ← range 10; y ← range 20; x ← range 20;
  [(V3 (inject_Z (x * 2 - 20)) (inject_Z (y * 2 - 20)) (inject_Z (- z * 2)),
    if decide (z = 0%Z) then grass else dirt)].

(** One [createNewBlock] call described by a (position, type) pair. *)
Definition spawn (self : MyGame) (b : Vec3 * BlockType) : MyGame :=
  createNewBlock (vx b.1) (vy b.1) (vz b.1) b.2 self.

(** The hit [removeBlock] and [placeBlock] act on: the head of the sorted
    queue. *)
Definition nearest (self : MyGame) : option CollisionEntry :=
  head (sortEntries (rayQueue self)).

(** The state a click handler works in once it has sorted the queue. *)
Definition sorted_queue (self : MyGame) : MyGame :=
  set_rayQueue (sortEntries (rayQueue self)) self.

(** ** A small world for examples

    Two blocks stacked at the origin, dirt at [(0,0,0)] on top of stone at
    [(0,0,-2)], and the camera [h] units above the origin looking straight
    down: the ray meets the top face of the dirt block [h-1] units away and
    the top face of the stone block [h+1] units away.  The traverser
    reports the farther hit first. *)
Definition stack_world (h : Q) : MyGame :=
  let self := fresh 0 0 in
  let self := createNewBlock 0 0 0 dirt self in
  let self := createNewBlock 0 0 (-2) stone self in
  let self := set_camera (setPos (V3 0 0 h) (camera self)) self in
  let self := captureMouse self in
  set_rayQueue
    [ {| into_node := 3%nat; surface_normal := V3 0 0 1; entry_dist := h + 1 |};
      {| into_node := 1%nat; surface_normal := V3 0 0 1; entry_dist := h - 1 |} ]
    self.

Definition top_hit (h : Q) : CollisionEntry :=
  {| into_node := 1%nat; surface_normal := V3 0 0 1; entry_dist := h - 1 |}.

Definition dirt_block : BlockNode :=
  {| node_pos := V3 0 0 0; node_hpr := V3 0 0 0;
     node_model := dirt; node_collider := 1%nat |}.

(** The two-block world after one left click from 10 units up: a grass
    block, the selected type, now sits at [(0,0,2)]; the queue still holds
    the hits of the last traversal. *)
Definition stack_world_clicked : MyGame :=
  createNewBlock 0 0 2 grass (sorted_queue (stack_world 10)).

(** The two-block world seen from [h] units up with the menu open, the
    mouse released, and the pointer since moved to [(5, 7)]. *)
Definition paused_world (h : Q) : MyGame :=
  let g := toggleMenu (stack_world h) in
  set_win (movePointer 5 7 (win g)) g.

(** ** The face struck and the normal reported

    The collision solid of a block is the box from [(-1,-1,-1)] to
    [(1,1,1)] of a collision node hanging unturned under the block's
    placeholder, so the collision node's space is the placeholder's.
    [rayHit.getSurfaceNormal(hitNodePath)] gives the outward normal of the
    face struck in that space, whereas [hitObject.getPos()] and the position
    handed to [createNewBlock] are relative to [render]. *)

(** The six faces of a block as seen under [render], named by the axis
    their outward unit normal points along: [East] is [+x], [North] is [+y],
    [Top] is [+z]. *)
Inductive Face := East | West | North | South | Top | Bottom.

Definition outward (f : Face) : Vec3 :=
  match f with
  | East => V3 1 0 0
  | West => V3 (-1) 0 0
  | North => V3 0 1 0
  | South => V3 0 (-1) 0
  | Top => V3 0 0 1
  | Bottom => V3 0 0 (-1)
  end.

(** A direction under [render] as it reads in the space of a placeholder
    with orientation [hpr], for the two orientations the program gives a
    placeholder.  [setHpr(0, 90, 0)] pitches the placeholder a quarter turn,
    its forward axis [+y] pointing up: it carries its own [(x, y, z)] to
    [(x, -z, y)] under [render], so [(X, Y, Z)] under [render] reads
    [(X, Z, -Y)] in its space. *)
Definition relative_to (hpr : Vec3) (v : Vec3) : option Vec3 :=
  if veqb hpr (V3 0 0 0) then Some v
  else if veqb hpr (V3 0 90 0) then Some (V3 (vx v) (vz v) (- vy v))
  else None.

(** The entry the traverser queues for a ray that strikes face [f] of
    block [b] at [d] along the ray. *)
Definition hit_on (b : BlockNode) (f : Face) (d : Q) : option CollisionEntry :=
  normal ← relative_to (node_hpr b) (outward f);
  Some {| into_node := node_collider b; surface_normal := normal;
          entry_dist := d |}.

(** The side of a grass block, under [render], towards which the normal of
    its face [f] points once that normal, taken in the block's own space,
    is read as a direction under [render]. *)
Definition misread (f : Face) : Face :=
  match f with
  | East => East
  | West => West
  | North => Bottom
  | South => Top
  | Top => North
  | Bottom => South
  end.

(** ** A grass world for examples

    Two grass blocks side by side as in the terrain's top layer, at
    [(0,0,0)] and [(0,2,0)], and the camera 10 units above the first
    looking straight down: the ray strikes the top face of the block at the
    origin 9 units away. *)
Definition grass_block : BlockNode :=
  {| node_pos := V3 0 0 0; node_hpr := V3 0 90 0;
     node_model := grass; node_collider := 1%nat |}.

Definition grass_world : MyGame :=
  let self := fresh 0 0 in
  let self := createNewBlock 0 0 0 grass self in
  let self := createNewBlock 0 2 0 grass self in
  let self := set_camera (setPos (V3 0 0 10) (camera self)) self in
  let self := captureMouse self in
  set_rayQueue (option_list (hit_on grass_block Top 9)) self.

(** The block type a numeric key stands for, in the specification's words:
    keys 1, 2, 3 and 4 select grass, dirt, sand and stone; no other input
    selects anything. *)
Definition selects (i : Input) : option BlockType :=
  match i with
  | Event name =>
      if decide (name = "1") then Some grass
      else if decide (name = "2") then Some dirt
      else if decide (name = "3") then Some sand
      else if decide (name = "4") then Some stone
      else None
  | _ => None
  end.

(** The inputs that toggle the menu: the escape key and the menu's
    "Continue" button. *)
Definition toggles (i : Input) : bool :=
  match i with
  | Event name => bool_decide (name = "escape")
  | ContinueButton => true
  | _ => false
  end.

(** The camera invariant of mouse look: pitch within a quarter turn either
    way, no roll. *)
Definition camera_level (self : MyGame) : Prop :=
  -90 <= cam_p (camera self) ∧ cam_p (camera self) <= 90
  ∧ cam_r (camera self) = 0.

(** A stand-in for the float library in examples: a fixed rational for
    [pi], and sine and cosine frozen at their values for heading 0. *)
Definition heading0_math : MathLib :=
  {| pi := 355 # 113; sin := λ _, 0; cos := λ _, 1 |}.

(** The state a frame of [update] returns when the menu is closed: the
    camera moved to [pos'] and, when mouse look is on, turned by the pointer's
    travel since the last frame. *)
Definition frame_result (dt : Q) (pos' : Vec3) (self : MyGame) : MyGame :=
  if cameraSwingActivated self then
    set_lastMouse (pointer_x (win self)) (pointer_y (win self))
      (set_camera
         (setHpr
            (cam_h (camera self)
               - (pointer_x (win self) - lastMouseX self) * dt * 10)
            (py_min 90
               (py_max (-90)
                  (cam_p (camera self)
                     - (pointer_y (win self) - lastMouseY self) * dt * 10)))
            0
            (setPos pos' (camera self)))
         (set_cameraSwingFactor 10 self))
  else set_camera (setPos pos' (camera self)) self.

(** What an input that neither toggles the menu nor selects a block type
    can turn a state [g] into. *)
Inductive outcome (M : MathLib) (g g' : MyGame) : Prop :=
  | out_same : g' = g → outcome M g g'
  | out_place : placeBlock g = Ok g' → outcome M g g'
  | out_remove : handleLeftClick g = Ok g' → outcome M g g'
  | out_key k v : g' = updateKeyMap k v g → outcome M g g'
  | out_frame dt : update M dt g = Ok g' → outcome M g g'
  | out_pointer x y : g' = set_win (movePointer x y (win g)) g → outcome M g g'
  | out_traverse q : g' = set_rayQueue q g → outcome M g g'.

(** ** Definitions for the further properties *)

(** The pause bookkeeping that [toggleMenu], [captureMouse] and
    [releaseMouse] keep in step: the menu frame is shown exactly while the
    menu is active, the cursor is hidden and confined exactly while mouse
    look is on, and mouse look is on whenever the menu is closed. *)
Definition mode_ok (self : MyGame) : Prop :=
  menuFrame_hidden self = negb (menuActive self)
  ∧ cursor_hidden (win self) = cameraSwingActivated self
  ∧ mouse_mode (win self)
      = (if cameraSwingActivated self then M_confined else M_absolute)
  ∧ (menuActive self = false → cameraSwingActivated self = true).

(** The type selected after [inputs], starting from [t]: that of the last
    numeric key among them. *)
Definition last_selected (t : BlockType) (inputs : list Input) : BlockType :=
  foldl (λ t i, default t (selects i)) t inputs.

(** The events [setupControls] accepts. *)
Definition bound_events : list string :=
  ["escape"; "mouse1"; "mouse3";
   "w"; "w-up"; "s"; "s-up"; "a"; "a-up"; "d"; "d-up";
   "space"; "space-up"; "lshift"; "lshift-up";
   "1"; "2"; "3"; "4"].

(** The movement keys with the action each one stands for, as listed in
    [setupControls]. *)
Definition movement_bindings : list (string * string) :=
  [("w", "forward"); ("s", "backward");
   ("a", "left"); ("d", "right");
   ("space", "up"); ("lshift", "down")].

(** The two inputs that reach [placeBlock] and [removeBlock]. *)
Definition is_click (i : Input) : bool :=
  match i with
  | Event name => bool_decide (name = "mouse1" ∨ name = "mouse3")
  | _ => false
  end.

(** The bookkeeping of the scene that [createNewBlock] sets up and
    [removeBlock] takes down: node identities are not reused, every block
    under [render] has its collision node tagged with the block itself, and
    every ['owner'] tag sits on the collision node of the block in the scene
    that it names. *)
Definition scene_ok (sg : SceneGraph) : Prop :=
  NoDup ((render sg).*1)
  ∧ Forall (λ nb, (nb.1 < next_node sg)%nat
                  ∧ owner_tag sg !! node_collider nb.2 = Some nb.1)
      (render sg)
  ∧ map_Forall (λ c n, (c < next_node sg)%nat
                       ∧ Exists (λ nb, nb.1 = n ∧ node_collider nb.2 = c)
                           (render sg))
      (owner_tag sg).

#[global] Instance scene_ok_dec sg : Decision (scene_ok sg).
Proof. unfold scene_ok. apply _. Defined.

(** Grass placeholders, and only those, are turned by [setHpr(0, 90, 0)]. *)
Definition rotation_ok (sg : SceneGraph) : Prop :=
  Forall (λ nb, node_hpr nb.2 =
                if decide (node_model nb.2 = grass) then V3 0 90 0
                else V3 0 0 0)
    (render sg).

#[global] Instance rotation_ok_dec sg : Decision (rotation_ok sg).
Proof. unfold rotation_ok. apply _. Defined.

#[global] Instance BlockNode_eq_dec : EqDecision BlockNode.
Proof. solve_decision. Defined.

(** * Properties *)

(** ** Arithmetic and folds *)

Lemma Qltb_lt a b : Qltb a b = true ↔ a < b.
Proof. unfold Qltb. rewrite Qlt_alt. destruct (a ?= b); split; congruence. Qed.

Lemma Qltb_ge a b : Qltb a b = false ↔ b <= a.
Proof.
  unfold Qltb. rewrite Qle_alt, <- (Qcompare_antisym a b).
  destruct (a ?= b); simpl; split; congruence.
Qed.

Lemma foldl_bind {A B C} (f : A → B → A) (k : C → list B) (l : list C) a :
  foldl f a (l ≫= k) = foldl (λ a c, foldl f a (k c)) a l.
Proof.
  revert a. induction l as [| c l IH]; intros a; [done |].
  rewrite bind_cons, foldl_app. apply IH.
Qed.

Lemma foldl_pointwise {A B} (f g : A → B → A) (l : list B) a :
  (∀ a b, f a b = g a b) → foldl f a l = foldl g a l.
Proof.
  intros Hfg. revert a. induction l as [| b l IH]; intros a; [done |].
  simpl. rewrite Hfg. apply IH.
Qed.

(** ** Terrain *)

Lemma block_views_createNewBlock x y z t g :
  block_views (createNewBlock x y z t g) = block_views g ++ [(V3 x y z, t)].
Proof. unfold block_views. simpl. by rewrite fmap_app. Qed.

Lemma block_views_spawn_all (l : list (Vec3 * BlockType)) g :
  block_views (foldl spawn g l) = block_views g ++ l.
Proof.
  revert g. induction l as [| [[x y z] t] l IH]; intros g; simpl.
  - by rewrite app_nil_r.
  - rewrite IH. unfold spawn. simpl vx; simpl vy; simpl vz; simpl snd.
    rewrite block_views_createNewBlock.
    by rewrite <- app_assoc.
Qed.

Lemma generateTerrain_spawn g : generateTerrain g = foldl spawn g terrain_spec.
Proof.
  unfold generateTerrain, terrain_spec.
  rewrite foldl_bind. apply foldl_pointwise. intros g1 z.
  rewrite foldl_bind. apply foldl_pointwise. intros g2 y.
  rewrite foldl_bind. apply foldl_pointwise. intros g3 x.
  simpl. unfold spawn. simpl.
  destruct (Z.eqb_spec z 0); destruct (decide (z = 0%Z)); done.
Qed.

Lemma block_views_captureMouse g : block_views (captureMouse g) = block_views g.
Proof. reflexivity. Qed.

Lemma block_views_setupCamera g : block_views (setupCamera g) = block_views g.
Proof. reflexivity. Qed.

Lemma terrain_spec_length : length terrain_spec = 4000%nat.
Proof. vm_compute. reflexivity. Qed.

Lemma terrain_spec_grass :
  length (filter (λ b, b.2 = grass) terrain_spec) = 400%nat.
Proof. vm_compute. reflexivity. Qed.

Lemma terrain_spec_dirt :
  length (filter (λ b, b.2 = dirt) terrain_spec) = 3600%nat.
Proof. vm_compute. reflexivity. Qed.

Lemma terrain_spec_elem b :
  b ∈ terrain_spec ↔
  ∃ x y z : Z,
    (0 ≤ x < 20)%Z ∧ (0 ≤ y < 20)%Z ∧ (0 ≤ z < 10)%Z ∧
    b = (V3 (inject_Z (x * 2 - 20)) (inject_Z (y * 2 - 20))
            (inject_Z (- z * 2)),
         if decide (z = 0%Z) then grass else dirt).
Proof.
  unfold terrain_spec, range.
  rewrite list_elem_of_bind. setoid_rewrite list_elem_of_bind.
  setoid_rewrite list_elem_of_bind. setoid_rewrite list_elem_of_singleton.
  setoid_rewrite elem_of_seqZ. split.
  - intros (z & (y & (x & -> & Hx) & Hy) & Hz). exists x, y, z.
    repeat split; lia.
  - intros (x & y & z & Hx & Hy & Hz & ->). exists z. split; [| lia].
    exists y. split; [| lia]. exists x. split; [done | lia].
Qed.

Lemma terrain_spec_NoDup : NoDup (terrain_spec.*1).
Proof.
  apply NoDup_fmap_fst.
  - intros p t1 t2 (x1 & y1 & z1 & _ & _ & _ & H1)%terrain_spec_elem
      (x2 & y2 & z2 & _ & _ & _ & H2)%terrain_spec_elem.
    injection H1 as -> ->. injection H2 as Hx Hy Hz ->.
    assert (z1 = z2) as -> by lia. done.
  - unfold terrain_spec, range.
    apply NoDup_bind; [| | apply NoDup_seqZ].
    { intros z1 z2 b _ _ (y1 & (x1 & ->%list_elem_of_singleton & _)
        %list_elem_of_bind & _)%list_elem_of_bind
        (y2 & (x2 & H%list_elem_of_singleton & _)
        %list_elem_of_bind & _)%list_elem_of_bind.
      injection H as _ _ Hz _. lia. }
    intros z _. apply NoDup_bind; [| | apply NoDup_seqZ].
    { intros y1 y2 b _ _ (x1 & ->%list_elem_of_singleton & _)%list_elem_of_bind
        (x2 & H%list_elem_of_singleton & _)%list_elem_of_bind.
      injection H as _ Hy. lia. }
    intros y _. apply NoDup_bind; [| | apply NoDup_seqZ].
    { intros x1 x2 b _ _ ->%list_elem_of_singleton H%list_elem_of_singleton.
      injection H as Hx. lia. }
    intros x _. apply NoDup_singleton.
Qed.

Lemma terrain_spec_grass_top :
  Forall (λ b, b.2 = grass ↔ vz b.1 == 0) terrain_spec.
Proof.
  apply Forall_forall. intros b (x & y & z & _ & _ & _ & ->)%terrain_spec_elem.
  simpl. unfold Qeq. simpl.
  destruct (decide (z = 0%Z)) as [-> | Hne]; split; try done.
  intros H. lia.
Qed.

(** C3.  Terrain generation adds, to whatever stood before, exactly the
    blocks of the specification: one for each triple [x] in [0,20), [y] in
    [0,20), [z] in [0,10), at [(x*2-20, y*2-20, -z*2)], grass exactly when
    [z = 0] and dirt otherwise; that is 4000 blocks at 4000 distinct
    positions, 400 of them grass and 3600 dirt, and at start-up they are the
    whole world. *)
Theorem generateTerrain_blocks (g : MyGame) (px py : Q) :
  block_views (generateTerrain g) = block_views g ++ terrain_spec
  ∧ (∀ b, b ∈ terrain_spec ↔
       ∃ x y z : Z,
         (0 ≤ x < 20)%Z ∧ (0 ≤ y < 20)%Z ∧ (0 ≤ z < 10)%Z ∧
         b = (V3 (inject_Z (x * 2 - 20)) (inject_Z (y * 2 - 20))
                 (inject_Z (- z * 2)),
              if decide (z = 0%Z) then grass else dirt))
  ∧ NoDup (terrain_spec.*1)
  ∧ length terrain_spec = 4000%nat
  ∧ length (filter (λ b, b.2 = grass) terrain_spec) = 400%nat
  ∧ length (filter (λ b, b.2 = dirt) terrain_spec) = 3600%nat
  ∧ block_views (init px py) = terrain_spec.
Proof.
  split_and!.
  - rewrite generateTerrain_spawn. apply block_views_spawn_all.
  - apply terrain_spec_elem.
  - apply terrain_spec_NoDup.
  - apply terrain_spec_length.
  - apply terrain_spec_grass.
  - apply terrain_spec_dirt.
  - unfold init. rewrite block_views_captureMouse, block_views_setupCamera.
    rewrite generateTerrain_spawn, block_views_spawn_all. reflexivity.
Qed.

(** ** The sorted queue *)

#[global] Instance entry_le_trans : Transitive entry_le.
Proof. intros a b c. unfold entry_le. apply Qle_trans. Qed.

#[global] Instance entry_le_total : Total entry_le.
Proof.
  intros a b. unfold entry_le.
  destruct (Qlt_le_dec (entry_dist b) (entry_dist a)) as [H | H];
    [right; apply Qlt_le_weak, H | left; exact H].
Qed.

Lemma sortEntries_Permutation q : sortEntries q ≡ₚ q.
Proof. apply merge_sort_Permutation. Qed.

Lemma sortEntries_sorted q : StronglySorted entry_le (sortEntries q).
Proof. apply StronglySorted_merge_sort; apply _. Qed.

Lemma sortEntries_nil_iff q : sortEntries q = [] ↔ q = [].
Proof.
  split; [| by intros ->].
  intros H. apply Permutation_nil_r. rewrite <- H.
  symmetry. apply sortEntries_Permutation.
Qed.

Lemma sortEntries_head q e rest :
  sortEntries q = e :: rest → e ∈ q ∧ Forall (entry_le e) q.
Proof.
  intros H. pose proof (sortEntries_Permutation q) as Hp.
  pose proof (sortEntries_sorted q) as Hs. rewrite H in Hp, Hs.
  split.
  - rewrite <- Hp. apply list_elem_of_here.
  - rewrite <- Hp. apply StronglySorted_inv in Hs as [_ Hall].
    constructor; [unfold entry_le; apply Qle_refl | exact Hall].
Qed.

Lemma nearest_cons g e :
  nearest g = Some e → ∃ rest, sortEntries (rayQueue g) = e :: rest.
Proof.
  unfold nearest. destruct (sortEntries (rayQueue g)) as [| e' rest]; [done |].
  intros [= ->]. by exists rest.
Qed.

Lemma nearest_nonempty g e : nearest g = Some e → rayQueue g ≠ [].
Proof.
  intros (rest & H)%nearest_cons Hq. rewrite Hq in H. done.
Qed.

Lemma nearest_is_Some g : rayQueue g ≠ [] → is_Some (nearest g).
Proof.
  intros Hq. unfold nearest.
  destruct (sortEntries (rayQueue g)) eqn:H; [| by eexists].
  apply (proj1 (sortEntries_nil_iff _)) in H. contradiction.
Qed.

(** ** Removal *)

Lemma removeBlock_empty g : rayQueue g = [] → removeBlock g = Ok g.
Proof. intros H. unfold removeBlock. by rewrite H. Qed.

(** What the two click operations do once the nearest hit [e], the node
    [n] its ['owner'] tag names and that node's record [b] are known. *)
Section NearestHit.
Context (g : MyGame) (e : CollisionEntry) (n : NodeId) (b : BlockNode).
Hypothesis He : nearest g = Some e.
Hypothesis Hn : getPythonTag (into_node e) (scene g) = Some n.
Hypothesis Hb : find_node n (scene g) = Some b.

Lemma queue_checked :
  sortEntries (rayQueue g) !! 0%nat = Some e
  ∧ ∃ yes, decide (0 < length (rayQueue g))%nat = left yes.
Proof.
  destruct (nearest_cons _ _ He) as (rest & Hs). split; [by rewrite Hs |].
  destruct (decide _) as [yes | Hlen]; [by exists yes |].
  pose proof (nearest_nonempty _ _ He).
  destruct (rayQueue g); [done | simpl in Hlen; lia].
Qed.

Lemma removeBlock_hit :
  removeBlock g =
    if distance_lt (node_pos b) (cam_pos (camera g)) 12
    then Ok (set_scene
               (removeNode n (clearPythonTag (into_node e) (scene g)))
               (sorted_queue g))
    else Ok (sorted_queue g).
Proof.
  destruct queue_checked as (Hq & yes & Hyes).
  unfold removeBlock, getEntry, nodePos. rewrite Hyes. simpl.
  rewrite Hq. simpl. rewrite Hn. simpl. rewrite Hb. simpl.
  by destruct (distance_lt _ _ _).
Qed.

Lemma placeBlock_hit :
  placeBlock g =
    if distance_lt (node_pos b) (cam_pos (camera g)) 14
    then
      let newBlockPos := vadd (node_pos b) (vscale (surface_normal e) 2) in
      Ok (createNewBlock (vx newBlockPos) (vy newBlockPos) (vz newBlockPos)
            (selectedBlockType g) (sorted_queue g))
    else Ok (sorted_queue g).
Proof.
  destruct queue_checked as (Hq & yes & Hyes).
  unfold placeBlock, getEntry, nodePos. rewrite Hyes. simpl.
  rewrite Hq. simpl. rewrite Hn. simpl. rewrite Hb. simpl.
  by destruct (distance_lt _ _ _).
Qed.
End NearestHit.

Lemma placeBlock_empty g : rayQueue g = [] → placeBlock g = Ok g.
Proof. intros H. unfold placeBlock. by rewrite H. Qed.

Lemma find_node_removeNode n sg : find_node n (removeNode n sg) = None.
Proof.
  unfold find_node, removeNode. simpl.
  rewrite (proj2 (list_find_None _ _)); [done |].
  apply Forall_forall. intros nb [Hne _]%list_elem_of_filter. done.
Qed.

Lemma distance_lt_spec a b r :
  distance_lt a b r = true ↔ distance_sq a b < r * r.
Proof. apply Qltb_lt. Qed.

Lemma distance_ge_spec a b r :
  distance_lt a b r = false ↔ r * r <= distance_sq a b.
Proof. apply Qltb_ge. Qed.

(** The comparison on squares is the comparison of the Euclidean distance
    itself, as a real number, with the bound. *)
Lemma Qsquare_nonneg (x : Q) : 0 <= x * x.
Proof. Lqa.nra. Qed.

Lemma distance_sq_nonneg a b : 0 <= distance_sq a b.
Proof.
  unfold distance_sq, vdot.
  pose proof (Qsquare_nonneg (vx (vsub a b))).
  pose proof (Qsquare_nonneg (vy (vsub a b))).
  pose proof (Qsquare_nonneg (vz (vsub a b))).
  Lqa.lra.
Qed.

Lemma distance_lt_euclid a b r :
  0 <= r →
  distance_lt a b r = true ↔ (sqrt (Q2R (distance_sq a b)) < Q2R r)%R.
Proof.
  intros Hr. rewrite distance_lt_spec.
  pose proof (Qle_Rle _ _ (distance_sq_nonneg a b)) as H0.
  pose proof (Qle_Rle _ _ Hr) as Hr'.
  replace (Q2R 0) with 0%R in * by (unfold Q2R; simpl; Lra.lra).
  split.
  - intros H%Qlt_Rlt. rewrite Q2R_mult in H.
    rewrite <- (sqrt_square (Q2R r)) by exact Hr'.
    apply sqrt_lt_1; [exact H0 | Lra.nra | exact H].
  - intros H. apply Rlt_Qlt. rewrite Q2R_mult.
    apply sqrt_lt_0_alt. rewrite sqrt_square by exact Hr'. exact H.
Qed.

(** C1.  Every non-empty queue has a nearest hit.  With one, removal leaves
    the queue sorted by ascending distance and acts on its head [e], the
    nearest hit.  Let [n]
    be the block node that the ['owner'] tag of the hit collision node
    names, at position [node_pos b].  If the camera is strictly less than 12
    units from that position, node [n] is taken out of the scene (no other
    node is) and the tag is cleared; at 12 units or more the scene is as it
    was.  With an empty queue nothing happens at all. *)
Theorem removeBlock_nearest_within_12
    (g : MyGame) (e : CollisionEntry) (n : NodeId) (b : BlockNode) :
  nearest g = Some e →
  getPythonTag (into_node e) (scene g) = Some n →
  find_node n (scene g) = Some b →
  StronglySorted entry_le (sortEntries (rayQueue g))
  ∧ sortEntries (rayQueue g) ≡ₚ rayQueue g
  ∧ e ∈ rayQueue g
  ∧ Forall (λ e', entry_dist e <= entry_dist e') (rayQueue g)
  ∧ (if distance_lt (node_pos b) (cam_pos (camera g)) 12 then
       distance_sq (node_pos b) (cam_pos (camera g)) < 12 * 12
       ∧ ∃ g', removeBlock g = Ok g'
           ∧ rayQueue g' = sortEntries (rayQueue g)
           ∧ render (scene g') = filter (λ nb, nb.1 ≠ n) (render (scene g))
           ∧ find_node n (scene g') = None
           ∧ owner_tag (scene g') = delete (into_node e) (owner_tag (scene g))
           ∧ getPythonTag (into_node e) (scene g') = None
     else
       12 * 12 <= distance_sq (node_pos b) (cam_pos (camera g))
       ∧ ∃ g', removeBlock g = Ok g'
           ∧ rayQueue g' = sortEntries (rayQueue g)
           ∧ scene g' = scene g)
  ∧ removeBlock (set_rayQueue [] g) = Ok (set_rayQueue [] g)
  ∧ (∀ g0, rayQueue g0 ≠ [] → is_Some (nearest g0)).
Proof.
  intros He Hn Hb.
  destruct (nearest_cons _ _ He) as (rest & Hs).
  destruct (sortEntries_head _ _ _ Hs) as [Hin Hmin].
  split_and!; [| | | | | | apply nearest_is_Some].
  - apply sortEntries_sorted.
  - apply sortEntries_Permutation.
  - exact Hin.
  - exact Hmin.
  - rewrite (removeBlock_hit g e n b He Hn Hb).
    destruct (distance_lt _ _ _) eqn:Hd.
    + split; [by apply distance_lt_spec |].
      eexists. split; [reflexivity |]. simpl. split_and!; try done.
      * apply (find_node_removeNode n (clearPythonTag _ _)).
      * unfold getPythonTag. simpl. apply lookup_delete_eq.
    + split; [by apply distance_ge_spec |].
      eexists. split; [reflexivity |]. done.
  - by apply removeBlock_empty.
Qed.

Lemma removeBlock_nearest_within_12_witness :
  ∃ g', removeBlock (stack_world 10) = Ok g'
    ∧ block_views g' = [(V3 0 0 (-2), stone)]
    ∧ getPythonTag 1%nat (scene g') = None.
Proof.
  destruct (removeBlock_nearest_within_12
              (stack_world 10) (top_hit 10) 0%nat dirt_block)
    as (_ & _ & _ & _ & H & _ & _);
    [vm_compute; reflexivity | vm_compute; reflexivity
     | vm_compute; reflexivity |].
  change (distance_lt (node_pos dirt_block)
            (cam_pos (camera (stack_world 10))) 12) with true in H.
  destruct H as (_ & g' & Hr & _ & Hrender & _ & _ & Htag).
  exists g'. split; [exact Hr |]. split; [| exact Htag].
  unfold block_views. rewrite Hrender. vm_compute. reflexivity.
Defined.

(** ** Placement *)

Lemma find_node_in sg n b : find_node n sg = Some b → (n, b) ∈ render sg.
Proof.
  unfold find_node.
  destruct (list_find _ _) as [[i [n' b']] |] eqn:Hf; [| done].
  intros [= <-]. apply list_find_Some in Hf as (Hi & Hn & _).
  simpl in Hn. subst. by eapply list_elem_of_lookup_2.
Qed.

Lemma rotation_ok_find sg n b :
  rotation_ok sg → find_node n sg = Some b →
  node_hpr b = if decide (node_model b = grass) then V3 0 90 0 else V3 0 0 0.
Proof.
  intros Hok Hin%find_node_in. unfold rotation_ok in Hok.
  rewrite Forall_forall in Hok. exact (Hok (n, b) Hin).
Qed.

(** C2 (a defect of the code: the offset is taken in the hit block's own
    space).  With a non-empty queue whose nearest hit is face [f] of a block
    less than 14 units from the camera, placement attaches exactly one new
    block of the selected type, at the hit block's position plus twice the
    normal the entry reports.  That normal is the face's in the space of the
    block's collision node, while the position is relative to [render].
    For dirt, sand and stone, which are not turned, the two agree and the
    new block is one block-width outward of the face struck.  For grass,
    which [createNewBlock] turns by [(0, 90, 0)], they do not: a hit on the
    top face places the new block 2 units to the north, a hit on the north
    face below, on the south face on top, on the bottom face to the south;
    only the east and west faces come out as claimed.  In the grass world a
    hit on the block at [(0,0,0)] whose surface normal under [render] is
    [(0,0,1)] spawns the new block at [(0,2,0)], inside the neighbouring
    block, and none at [(0,0,2)]. *)
Theorem placeBlock_offsets_in_block_space
    (g : MyGame) (e : CollisionEntry) (n : NodeId) (b : BlockNode)
    (f : Face) :
  rotation_ok (scene g) →
  nearest g = Some e →
  getPythonTag (into_node e) (scene g) = Some n →
  find_node n (scene g) = Some b →
  hit_on b f (entry_dist e) = Some e →
  distance_lt (node_pos b) (cam_pos (camera g)) 14 = true →
  (∃ g' p,
      placeBlock g = Ok g'
      ∧ block_views g' = block_views g ++ [(p, selectedBlockType g)]
      ∧ p = vadd (node_pos b) (vscale (surface_normal e) 2)
      ∧ (node_model b ≠ grass →
           p = vadd (node_pos b) (vscale (outward f) 2))
      ∧ (node_model b = grass →
           p = vadd (node_pos b) (vscale (outward (misread f)) 2)))
  ∧ outward (misread Top) = V3 0 1 0
  ∧ block_views <$> placeBlock grass_world =
      Ok [(V3 0 0 0, grass); (V3 0 2 0, grass); (V3 0 2 0, grass)]
  ∧ blocks_at (V3 0 0 2) <$> placeBlock grass_world = Ok 0%nat
  ∧ blocks_at (V3 0 2 0) <$> placeBlock grass_world = Ok 2%nat.
Proof.
  intros Hok He Hn Hb Hhit Hd. split; [| by vm_compute].
  pose proof (rotation_ok_find _ _ _ Hok Hb) as Hhpr.
  rewrite (placeBlock_hit g e n b He Hn Hb), Hd. cbv zeta.
  eexists _, _. split; [reflexivity |].
  rewrite block_views_createNewBlock.
  split; [reflexivity |]. split; [reflexivity |].
  unfold hit_on in Hhit. rewrite Hhpr in Hhit.
  destruct e as [c normal d]. simpl in *.
  destruct (decide (node_model b = grass)) as [Hg | Hg].
  - split; [done |]. intros _.
    destruct f; simpl in Hhit; injection Hhit as _ <-; reflexivity.
  - split; [| done]. intros _.
    destruct f; simpl in Hhit; injection Hhit as _ <-; reflexivity.
Qed.

Lemma placeBlock_offsets_in_block_space_witness :
  ∃ g', placeBlock grass_world = Ok g'
    ∧ block_views g' =
        [(V3 0 0 0, grass); (V3 0 2 0, grass); (V3 0 2 0, grass)].
Proof.
  destruct (placeBlock_offsets_in_block_space grass_world
              {| into_node := 1%nat; surface_normal := V3 0 1 0;
                 entry_dist := 9 |}
              0%nat grass_block Top)
    as ((g' & p & Hr & Hv & _ & _ & Hp) & _);
    [apply (bool_decide_unpack _); vm_compute; exact I
     | vm_compute; reflexivity | vm_compute; reflexivity
     | vm_compute; reflexivity | vm_compute; reflexivity
     | vm_compute; reflexivity |].
  exists g'. split; [exact Hr |].
  rewrite Hv, (Hp eq_refl). vm_compute. reflexivity.
Defined.

(** ** Out of reach *)

Lemma restore_queue g q : set_rayQueue (rayQueue g) (set_rayQueue q g) = g.
Proof. by destruct g. Qed.

(** C4, as stated, fails: with the camera exactly 12 units from the nearest
    hit block, removal deletes nothing but does not leave the state as it
    found it, because it has sorted the queue; likewise placement at exactly
    14 units. *)
Lemma out_of_reach_click_changes_state :
  (nearest (stack_world 12) = Some (top_hit 12)
   ∧ getPythonTag (into_node (top_hit 12)) (scene (stack_world 12))
       = Some 0%nat
   ∧ find_node 0%nat (scene (stack_world 12)) = Some dirt_block
   ∧ distance_sq (node_pos dirt_block) (cam_pos (camera (stack_world 12)))
       == 12 * 12
   ∧ removeBlock (stack_world 12) ≠ Ok (stack_world 12))
  ∧ (nearest (stack_world 14) = Some (top_hit 14)
     ∧ getPythonTag (into_node (top_hit 14)) (scene (stack_world 14))
         = Some 0%nat
     ∧ find_node 0%nat (scene (stack_world 14)) = Some dirt_block
     ∧ distance_sq (node_pos dirt_block) (cam_pos (camera (stack_world 14)))
         == 14 * 14
     ∧ placeBlock (stack_world 14) ≠ Ok (stack_world 14)).
Proof.
  split; split_and!; try (vm_compute; reflexivity).
  - intros H. apply (f_equal (fmap (M := result) rayQueue)) in H.
    vm_compute in H. discriminate H.
  - intros H. apply (f_equal (fmap (M := result) rayQueue)) in H.
    vm_compute in H. discriminate H.
Qed.

(** C4, amended.  When the camera is 12 units or more (removal), 14 units or
    more (placement), from the block of the nearest hit, the operation
    returns the state it was given with the queue sorted: the same entries,
    nearest first, and every other part of the state, the world included,
    untouched.  A distance of exactly 12, respectively 14, is out of reach.
    With an empty queue both operations return the state unchanged. *)
Theorem out_of_reach_keeps_world
    (g : MyGame) (e : CollisionEntry) (n : NodeId) (b : BlockNode) :
  nearest g = Some e →
  getPythonTag (into_node e) (scene g) = Some n →
  find_node n (scene g) = Some b →
  (12 * 12 <= distance_sq (node_pos b) (cam_pos (camera g)) →
     removeBlock g = Ok (sorted_queue g))
  ∧ (14 * 14 <= distance_sq (node_pos b) (cam_pos (camera g)) →
     placeBlock g = Ok (sorted_queue g))
  ∧ set_rayQueue (rayQueue g) (sorted_queue g) = g
  ∧ rayQueue (sorted_queue g) ≡ₚ rayQueue g
  ∧ StronglySorted entry_le (rayQueue (sorted_queue g))
  ∧ scene (sorted_queue g) = scene g
  ∧ removeBlock (set_rayQueue [] g) = Ok (set_rayQueue [] g)
  ∧ placeBlock (set_rayQueue [] g) = Ok (set_rayQueue [] g).
Proof.
  intros He Hn Hb. split_and!.
  - intros Hd. rewrite (removeBlock_hit g e n b He Hn Hb).
    by rewrite (proj2 (distance_ge_spec _ _ _) Hd).
  - intros Hd. rewrite (placeBlock_hit g e n b He Hn Hb).
    by rewrite (proj2 (distance_ge_spec _ _ _) Hd).
  - apply restore_queue.
  - apply sortEntries_Permutation.
  - apply sortEntries_sorted.
  - reflexivity.
  - by apply removeBlock_empty.
  - by apply placeBlock_empty.
Qed.

Lemma out_of_reach_keeps_world_witness :
  removeBlock (stack_world 14) = Ok (sorted_queue (stack_world 14))
  ∧ placeBlock (stack_world 14) = Ok (sorted_queue (stack_world 14))
  ∧ block_views (sorted_queue (stack_world 14)) = block_views (stack_world 14).
Proof.
  destruct (out_of_reach_keeps_world (stack_world 14) (top_hit 14) 0%nat
              dirt_block) as (Hr & Hp & _ & _ & _ & Hs & _);
    [vm_compute; reflexivity | vm_compute; reflexivity
     | vm_compute; reflexivity |].
  split_and!.
  - apply Hr. vm_compute. discriminate.
  - apply Hp. vm_compute. discriminate.
  - unfold block_views. by rewrite Hs.
Defined.

(** ** No occupancy check *)

Lemma veqb_refl p : veqb p p = true.
Proof.
  unfold veqb. by rewrite !(proj2 (Qeq_bool_iff _ _) (Qeq_refl _)).
Qed.

Lemma blocks_at_createNewBlock p t g :
  blocks_at p (createNewBlock (vx p) (vy p) (vz p) t g) = S (blocks_at p g).
Proof.
  unfold blocks_at. rewrite block_views_createNewBlock, filter_app, length_app.
  destruct p as [x y z]. simpl vx; simpl vy; simpl vz.
  rewrite filter_cons_True by apply veqb_refl. simpl. lia.
Qed.

(** C8.  Placement never looks at what the target position holds: when the
    nearest hit is within reach and the computed position is already
    occupied, a further block is attached there all the same, so the count
    of blocks at that position goes up by one and is at least two. *)
Theorem placeBlock_ignores_occupancy
    (g : MyGame) (e : CollisionEntry) (n : NodeId) (b : BlockNode) :
  nearest g = Some e →
  getPythonTag (into_node e) (scene g) = Some n →
  find_node n (scene g) = Some b →
  distance_lt (node_pos b) (cam_pos (camera g)) 14 = true →
  (0 < blocks_at (vadd (node_pos b) (vscale (surface_normal e) 2)) g)%nat →
  ∃ g', placeBlock g = Ok g'
    ∧ blocks_at (vadd (node_pos b) (vscale (surface_normal e) 2)) g' =
        S (blocks_at (vadd (node_pos b) (vscale (surface_normal e) 2)) g)
    ∧ (2 ≤ blocks_at (vadd (node_pos b) (vscale (surface_normal e) 2)) g')%nat.
Proof.
  intros He Hn Hb Hd Hocc.
  rewrite (placeBlock_hit g e n b He Hn Hb), Hd. cbv zeta.
  eexists. split; [reflexivity |].
  rewrite blocks_at_createNewBlock.
  change (blocks_at ?p (sorted_queue g)) with (blocks_at p g).
  split; [reflexivity | lia].
Qed.

Lemma placeBlock_ignores_occupancy_witness :
  placeBlock (stack_world 10) = Ok stack_world_clicked
  ∧ blocks_at (V3 0 0 2) stack_world_clicked = 1%nat
  ∧ ∃ g', placeBlock stack_world_clicked = Ok g'
      ∧ blocks_at (V3 0 0 2) g' = 2%nat.
Proof.
  split; [vm_compute; reflexivity |]. split; [vm_compute; reflexivity |].
  destruct (placeBlock_ignores_occupancy
              stack_world_clicked (top_hit 10) 0%nat dirt_block)
    as (g' & Hr & Hc & _);
    [vm_compute; reflexivity | vm_compute; reflexivity
     | vm_compute; reflexivity | vm_compute; reflexivity
     | vm_compute; lia |].
  exists g'. split; [exact Hr |].
  etransitivity; [exact Hc |]. vm_compute. reflexivity.
Defined.

(** ** The binding table *)

Lemma setupControls_bindings :
  setupControls =
    <["4" := λ self, Ok (setSelectedBlockType stone self)]> (
    <["3" := λ self, Ok (setSelectedBlockType sand self)]> (
    <["2" := λ self, Ok (setSelectedBlockType dirt self)]> (
    <["1" := λ self, Ok (setSelectedBlockType grass self)]> (
    <["lshift-up" := λ self, Ok (updateKeyMap "down" false self)]> (
    <["lshift" := λ self, Ok (updateKeyMap "down" true self)]> (
    <["space-up" := λ self, Ok (updateKeyMap "up" false self)]> (
    <["space" := λ self, Ok (updateKeyMap "up" true self)]> (
    <["d-up" := λ self, Ok (updateKeyMap "right" false self)]> (
    <["d" := λ self, Ok (updateKeyMap "right" true self)]> (
    <["a-up" := λ self, Ok (updateKeyMap "left" false self)]> (
    <["a" := λ self, Ok (updateKeyMap "left" true self)]> (
    <["s-up" := λ self, Ok (updateKeyMap "backward" false self)]> (
    <["s" := λ self, Ok (updateKeyMap "backward" true self)]> (
    <["w-up" := λ self, Ok (updateKeyMap "forward" false self)]> (
    <["w" := λ self, Ok (updateKeyMap "forward" true self)]> (
    <["mouse3" := handleLeftClick]> (
    <["mouse1" := placeBlock]> (
    <["escape" := λ self, Ok (toggleMenu self)]> ∅)))))))))))))))))).
Proof. reflexivity. Qed.

Lemma throw_lookup name :
  setupControls !! name =
    if decide (name = "4") then Some (λ self, Ok (setSelectedBlockType stone self))
    else if decide (name = "3") then Some (λ self, Ok (setSelectedBlockType sand self))
    else if decide (name = "2") then Some (λ self, Ok (setSelectedBlockType dirt self))
    else if decide (name = "1") then Some (λ self, Ok (setSelectedBlockType grass self))
    else if decide (name = "lshift-up") then Some (λ self, Ok (updateKeyMap "down" false self))
    else if decide (name = "lshift") then Some (λ self, Ok (updateKeyMap "down" true self))
    else if decide (name = "space-up") then Some (λ self, Ok (updateKeyMap "up" false self))
    else if decide (name = "space") then Some (λ self, Ok (updateKeyMap "up" true self))
    else if decide (name = "d-up") then Some (λ self, Ok (updateKeyMap "right" false self))
    else if decide (name = "d") then Some (λ self, Ok (updateKeyMap "right" true self))
    else if decide (name = "a-up") then Some (λ self, Ok (updateKeyMap "left" false self))
    else if decide (name = "a") then Some (λ self, Ok (updateKeyMap "left" true self))
    else if decide (name = "s-up") then Some (λ self, Ok (updateKeyMap "backward" false self))
    else if decide (name = "s") then Some (λ self, Ok (updateKeyMap "backward" true self))
    else if decide (name = "w-up") then Some (λ self, Ok (updateKeyMap "forward" false self))
    else if decide (name = "w") then Some (λ self, Ok (updateKeyMap "forward" true self))
    else if decide (name = "mouse3") then Some handleLeftClick
    else if decide (name = "mouse1") then Some placeBlock
    else if decide (name = "escape") then Some (λ self, Ok (toggleMenu self))
    else None.
Proof.
  rewrite setupControls_bindings.
  repeat (rewrite lookup_insert;
          destruct (decide (_ = name)) as [<- | ?]; [reflexivity |];
          destruct (decide (name = _)) as [? | _]; [congruence |]).
  apply lookup_empty.
Qed.

Lemma throw_mouse1 g : throw "mouse1" g = placeBlock g.
Proof. unfold throw. by rewrite throw_lookup. Qed.

Lemma throw_mouse3 g : throw "mouse3" g = handleLeftClick g.
Proof. unfold throw. by rewrite throw_lookup. Qed.

Lemma throw_escape g : throw "escape" g = Ok (toggleMenu g).
Proof. unfold throw. by rewrite throw_lookup. Qed.

(** ** The mouse bindings *)

Lemma removeBlock_set_menuActive v g :
  removeBlock (set_menuActive v g) = set_menuActive v <$> removeBlock g.
Proof.
  unfold removeBlock. simpl rayQueue.
  destruct (decide _) as [_ |]; [| done].
  unfold getEntry, nodePos. simpl.
  destruct (sortEntries (rayQueue g) !! 0%nat) as [rayHit |]; [| done]. simpl.
  destruct (getPythonTag (into_node rayHit) (scene g)) as [n |]; [| done].
  simpl. destruct (find_node n (scene g)) as [b |]; [| done]. simpl.
  by destruct (distance_lt _ _ _).
Qed.

Lemma placeBlock_set_menuActive v g :
  placeBlock (set_menuActive v g) = set_menuActive v <$> placeBlock g.
Proof.
  unfold placeBlock. simpl rayQueue.
  destruct (decide _) as [_ |]; [| done].
  unfold getEntry, nodePos. simpl.
  destruct (sortEntries (rayQueue g) !! 0%nat) as [rayHit |]; [| done]. simpl.
  destruct (getPythonTag (into_node rayHit) (scene g)) as [n |]; [| done].
  simpl. destruct (find_node n (scene g)) as [b |]; [| done]. simpl.
  by destruct (distance_lt _ _ _).
Qed.

Lemma handleLeftClick_set_menuActive v g :
  handleLeftClick (set_menuActive v g) = set_menuActive v <$> handleLeftClick g.
Proof.
  unfold handleLeftClick.
  change (captureMouse (set_menuActive v g))
    with (set_menuActive v (captureMouse g)).
  apply removeBlock_set_menuActive.
Qed.

(** C9.  The click handlers never read the pause flag.  Left click is bound
    to [placeBlock] and right click to [handleLeftClick], which captures the
    mouse and calls [removeBlock]; run from two states that differ only in
    [menuActive], each produces outcomes that differ only in [menuActive].
    In particular, with the menu open a left click still adds a block and a
    right click still removes one. *)
Theorem clicks_not_gated_on_pause (g : MyGame) (v : bool) :
  throw "mouse1" g = placeBlock g
  ∧ throw "mouse3" g = removeBlock (captureMouse g)
  ∧ throw "mouse1" (set_menuActive v g)
      = set_menuActive v <$> throw "mouse1" g
  ∧ throw "mouse3" (set_menuActive v g)
      = set_menuActive v <$> throw "mouse3" g
  ∧ menuActive (paused_world 10) = true
  ∧ block_views (paused_world 10) = [(V3 0 0 0, dirt); (V3 0 0 (-2), stone)]
  ∧ block_views <$> throw "mouse1" (paused_world 10)
      = Ok [(V3 0 0 0, dirt); (V3 0 0 (-2), stone); (V3 0 0 2, grass)]
  ∧ block_views <$> throw "mouse3" (paused_world 10)
      = Ok [(V3 0 0 (-2), stone)]
  ∧ menuActive <$> throw "mouse1" (paused_world 10) = Ok true
  ∧ menuActive <$> throw "mouse3" (paused_world 10) = Ok true.
Proof.
  split_and!.
  - apply throw_mouse1.
  - apply throw_mouse3.
  - rewrite !throw_mouse1. apply placeBlock_set_menuActive.
  - rewrite !throw_mouse3. apply handleLeftClick_set_menuActive.
  - reflexivity.
  - vm_compute. reflexivity.
  - rewrite throw_mouse1. vm_compute. reflexivity.
  - rewrite throw_mouse3. vm_compute. reflexivity.
  - rewrite throw_mouse1. vm_compute. reflexivity.
  - rewrite throw_mouse3. vm_compute. reflexivity.
Qed.

(** ** Mouse capture on right click *)

Lemma placeBlock_keeps_mouse g g' :
  placeBlock g = Ok g' →
  cameraSwingActivated g' = cameraSwingActivated g
  ∧ lastMouseX g' = lastMouseX g
  ∧ lastMouseY g' = lastMouseY g
  ∧ win g' = win g.
Proof.
  unfold placeBlock.
  destruct (decide _) as [_ |]; [| by intros [= <-]].
  unfold getEntry, nodePos. simpl.
  destruct (sortEntries (rayQueue g) !! 0%nat) as [rayHit |]; [| done]. simpl.
  destruct (getPythonTag (into_node rayHit) (scene g)) as [n |]; [| done].
  simpl. destruct (find_node n (scene g)) as [b |]; [| done]. simpl.
  destruct (distance_lt _ _ _); by intros [= <-].
Qed.

Lemma removeBlock_keeps_mouse g g' :
  removeBlock g = Ok g' →
  cameraSwingActivated g' = cameraSwingActivated g
  ∧ lastMouseX g' = lastMouseX g
  ∧ lastMouseY g' = lastMouseY g
  ∧ win g' = win g.
Proof.
  unfold removeBlock.
  destruct (decide _) as [_ |]; [| by intros [= <-]].
  unfold getEntry, nodePos. simpl.
  destruct (sortEntries (rayQueue g) !! 0%nat) as [rayHit |]; [| done]. simpl.
  destruct (getPythonTag (into_node rayHit) (scene g)) as [n |]; [| done].
  simpl. destruct (find_node n (scene g)) as [b |]; [| done]. simpl.
  destruct (distance_lt _ _ _); by intros [= <-].
Qed.

(** C10.  A right click runs [captureMouse] and then [removeBlock] on the
    result.  Whatever the removal does, also when it removes nothing, the
    state it returns has [cameraSwingActivated] set, [lastMouseX] and
    [lastMouseY] at the pointer's position at the time of the click, and the
    cursor hidden and confined.  A left click leaves all of these as they
    were.  In the paused two-block world seen from 12 units up, where
    nothing is in reach, a right click removes no block and still captures
    the mouse; so does one with an empty queue. *)
Theorem right_click_captures_mouse (g : MyGame) :
  throw "mouse3" g = removeBlock (captureMouse g)
  ∧ cameraSwingActivated (captureMouse g) = true
  ∧ lastMouseX (captureMouse g) = pointer_x (win g)
  ∧ lastMouseY (captureMouse g) = pointer_y (win g)
  ∧ (∀ g', throw "mouse3" g = Ok g' →
       cameraSwingActivated g' = true
       ∧ lastMouseX g' = pointer_x (win g)
       ∧ lastMouseY g' = pointer_y (win g)
       ∧ win g' = requestProperties true M_confined (win g))
  ∧ throw "mouse3" (set_rayQueue [] g) = Ok (captureMouse (set_rayQueue [] g))
  ∧ (∀ g', throw "mouse1" g = Ok g' →
       cameraSwingActivated g' = cameraSwingActivated g
       ∧ lastMouseX g' = lastMouseX g
       ∧ lastMouseY g' = lastMouseY g
       ∧ win g' = win g)
  ∧ cameraSwingActivated (paused_world 12) = false
  ∧ lastMouseX (paused_world 12) = 0
  ∧ pointer_x (win (paused_world 12)) = 5
  ∧ (λ g', (block_views g', cameraSwingActivated g',
            lastMouseX g', lastMouseY g'))
      <$> throw "mouse3" (paused_world 12)
      = Ok (block_views (paused_world 12), true, 5, 7)
  ∧ (λ g', (block_views g', cameraSwingActivated g',
            lastMouseX g', lastMouseY g'))
      <$> throw "mouse1" (paused_world 12)
      = Ok (block_views (paused_world 12) ++ [(V3 0 0 2, grass)],
            false, 0, 0).
Proof.
  split_and!.
  - apply throw_mouse3.
  - reflexivity.
  - reflexivity.
  - reflexivity.
  - intros g'. rewrite throw_mouse3. unfold handleLeftClick.
    intros (Hs & Hx & Hy & Hw)%removeBlock_keeps_mouse.
    rewrite Hs, Hx, Hy, Hw. done.
  - rewrite throw_mouse3. unfold handleLeftClick.
    by apply removeBlock_empty.
  - intros g'. rewrite throw_mouse1. apply placeBlock_keeps_mouse.
  - reflexivity.
  - reflexivity.
  - reflexivity.
  - rewrite throw_mouse3. vm_compute. reflexivity.
  - rewrite throw_mouse1. vm_compute. reflexivity.
Qed.


(** ** The frame task *)

Lemma update_paused M dt g : menuActive g = true → update M dt g = Ok g.
Proof. intros H. unfold update. by rewrite H. Qed.

Lemma update_cases M dt g g' :
  update M dt g = Ok g' →
  (menuActive g = true ∧ g' = g)
  ∨ (menuActive g = false ∧ ∃ pos', g' = frame_result dt pos' g).
Proof.
  unfold update, keyHeld, frame_result.
  destruct (menuActive g); [intros [= <-]; by left |].
  intros H. right. split; [done |]. revert H.
  destruct (globalClock g) as [clock |]; [simpl | done].
  destruct (keyMap g !! "forward") as [forward |]; [simpl | done].
  destruct (keyMap g !! "backward") as [backward |]; [simpl | done].
  destruct (keyMap g !! "left") as [left |]; [simpl | done].
  destruct (keyMap g !! "right") as [right |]; [simpl | done].
  destruct (keyMap g !! "up") as [up |]; [simpl | done].
  destruct (keyMap g !! "down") as [down |]; [simpl | done].
  destruct (cameraSwingActivated g); intros [= <-]; eexists; reflexivity.
Qed.

Lemma py_clamp_range v :
  -90 <= py_min 90 (py_max (-90) v) ∧ py_min 90 (py_max (-90) v) <= 90.
Proof.
  unfold py_min, py_max.
  destruct (Qltb (-90) v) eqn:H1.
  - apply Qltb_lt in H1. destruct (Qltb v 90) eqn:H2.
    + apply Qltb_lt in H2. split; lra.
    + split; lra.
  - destruct (Qltb (-90) 90) eqn:H2; split; lra.
Qed.

Lemma frame_result_level dt pos' g :
  camera_level g → camera_level (frame_result dt pos' g).
Proof.
  unfold camera_level, frame_result. intros (Hlo & Hhi & Hr).
  destruct (cameraSwingActivated g); simpl.
  - destruct (py_clamp_range
                (cam_p (camera g)
                   - (pointer_y (win g) - lastMouseY g) * dt * 10)).
    done.
  - done.
Qed.

Lemma update_level M dt g g' :
  update M dt g = Ok g' → camera_level g → camera_level g'.
Proof.
  intros [[_ ->] | [_ [pos' ->]]]%update_cases; [done |].
  apply frame_result_level.
Qed.

(** ** What one input can do *)

Lemma placeBlock_outcome g g' :
  placeBlock g = Ok g' →
  g' = g ∨ g' = sorted_queue g
  ∨ ∃ p, g' = createNewBlock (vx p) (vy p) (vz p) (selectedBlockType g)
                (sorted_queue g).
Proof.
  unfold placeBlock.
  destruct (decide _) as [_ |]; [| intros [= <-]; by left].
  unfold getEntry, nodePos. simpl.
  destruct (sortEntries (rayQueue g) !! 0%nat) as [rayHit |]; [| done]. simpl.
  destruct (getPythonTag (into_node rayHit) (scene g)) as [n |]; [| done].
  simpl. destruct (find_node n (scene g)) as [b |]; [| done]. simpl.
  destruct (distance_lt _ _ _); intros [= <-].
  - right; right.
    by exists (vadd (node_pos b) (vscale (surface_normal rayHit) 2)).
  - right; by left.
Qed.

Lemma removeBlock_outcome g g' :
  removeBlock g = Ok g' →
  g' = g ∨ g' = sorted_queue g
  ∨ ∃ n c, g' = set_scene (removeNode n (clearPythonTag c (scene g)))
                  (sorted_queue g).
Proof.
  unfold removeBlock.
  destruct (decide _) as [_ |]; [| intros [= <-]; by left].
  unfold getEntry, nodePos. simpl.
  destruct (sortEntries (rayQueue g) !! 0%nat) as [rayHit |]; [| done]. simpl.
  destruct (getPythonTag (into_node rayHit) (scene g)) as [n |]; [| done].
  simpl. destruct (find_node n (scene g)) as [b |]; [| done]. simpl.
  destruct (distance_lt _ _ _); intros [= <-].
  - right; right. by eexists _, _.
  - right; by left.
Qed.

Lemma throw_outcome M name g g' :
  throw name g = Ok g' →
  (name = "escape" ∧ g' = toggleMenu g)
  ∨ (name ≠ "escape" ∧ ∃ t,
       selects (Event name) = Some t ∧ g' = setSelectedBlockType t g)
  ∨ (name ≠ "escape" ∧ selects (Event name) = None ∧ outcome M g g').
Proof.
  unfold throw. rewrite throw_lookup.
  repeat (destruct (decide (name = _)) as [-> | ?]).
  all: first
    [ (* the escape key *)
      intros [= <-]; left; split; reflexivity
    | (* a numeric key *)
      intros [= <-]; right; left; split; [done |];
      eexists; split; reflexivity
    | (* a movement key, pressed or released *)
      intros [= <-]; right; right; split; [done |];
      split; [reflexivity |]; eapply out_key; reflexivity
    | (* the mouse buttons *)
      intros H; right; right; split; [done |];
      split; [reflexivity |];
      first [by apply out_place | by apply out_remove]
    | (* an event nobody accepted *)
      intros [= <-]; right; right; split; [done |];
      split; [unfold selects; rewrite !decide_False by done; done |];
      by apply out_same ].
Qed.

Lemma step_outcome M i g g' :
  step M i g = Ok g' →
  (toggles i = true ∧ g' = toggleMenu g)
  ∨ (toggles i = false ∧ ∃ t,
       selects i = Some t ∧ g' = setSelectedBlockType t g)
  ∨ (toggles i = false ∧ selects i = None ∧ outcome M g g').
Proof.
  destruct i as [name | | | dt | x y | q]; simpl.
  - intros [[-> ->] | [[Hne H] | [Hne H]]]%(throw_outcome M).
    + by left.
    + right; left. by rewrite bool_decide_eq_false_2.
    + right; right. by rewrite bool_decide_eq_false_2.
  - intros [= <-]. by left.
  - done.
  - intros H. right; right. split_and!; [done | done |]. by eapply out_frame.
  - intros [= <-]. right; right. split_and!; [done | done |].
    by eapply out_pointer.
  - intros [= <-]. right; right. split_and!; [done | done |].
    by eapply out_traverse.
Qed.

Ltac outcome_cases H :=
  destruct H as
    [ ->
    | [-> | [-> | [p ->]]]%placeBlock_outcome
    | [-> | [-> | (n & c & ->)]]%removeBlock_outcome
    | k v ->
    | dt [[_ ->] | [_ [pos' ->]]]%update_cases
    | x y ->
    | q -> ].

Lemma outcome_selected M g g' :
  outcome M g g' → selectedBlockType g' = selectedBlockType g.
Proof.
  intros H. outcome_cases H; try reflexivity.
  unfold frame_result. by destruct (cameraSwingActivated g).
Qed.

Lemma outcome_menu M g g' : outcome M g g' → menuActive g' = menuActive g.
Proof.
  intros H. outcome_cases H; try reflexivity.
  unfold frame_result. by destruct (cameraSwingActivated g).
Qed.

Lemma outcome_camera_paused M g g' :
  outcome M g g' → menuActive g = true → camera g' = camera g.
Proof.
  intros H Hm.
  destruct H as
    [ ->
    | [-> | [-> | [p ->]]]%placeBlock_outcome
    | [-> | [-> | (n & c & ->)]]%removeBlock_outcome
    | k v ->
    | dt Hu
    | x y ->
    | q -> ]; try reflexivity.
  rewrite (update_paused _ _ _ Hm) in Hu. by injection Hu as <-.
Qed.

Lemma outcome_level M g g' :
  outcome M g g' → camera_level g → camera_level g'.
Proof.
  intros H. outcome_cases H; try done.
  apply frame_result_level.
Qed.

Lemma toggleMenu_level g : camera_level g → camera_level (toggleMenu g).
Proof. unfold toggleMenu. by destruct (menuActive g). Qed.

Lemma step_level M i g g' :
  step M i g = Ok g' → camera_level g → camera_level g'.
Proof.
  intros [[_ ->] | [(_ & t & _ & ->) | (_ & _ & H)]]%step_outcome.
  - apply toggleMenu_level.
  - done.
  - by apply (outcome_level M).
Qed.

Lemma run_cons M i inputs g :
  run M (i :: inputs) g = (g1 <- step M i g;; run M inputs g1).
Proof. reflexivity. Qed.

Lemma run_level M inputs g g' :
  run M inputs g = Ok g' → camera_level g → camera_level g'.
Proof.
  revert g. induction inputs as [| i inputs IH]; intros g; simpl.
  - by intros [= <-].
  - destruct (step M i g) as [g1 |] eqn:Hstep; [simpl | done].
    intros Hrun Hl. apply (IH g1 Hrun). by apply (step_level M i g).
Qed.

Lemma toggleMenu_selected g :
  selectedBlockType (toggleMenu g) = selectedBlockType g.
Proof. unfold toggleMenu. by destruct (menuActive g). Qed.

Lemma step_selected M i g g' :
  step M i g = Ok g' →
  selectedBlockType g' = default (selectedBlockType g) (selects i).
Proof.
  intros [[Ht ->] | [(_ & t & -> & ->) | (_ & -> & H)]]%step_outcome.
  - rewrite toggleMenu_selected.
    destruct i as [name | | | | |]; try done. simpl in *.
    apply bool_decide_eq_true_1 in Ht as ->. reflexivity.
  - reflexivity.
  - by apply (outcome_selected M).
Qed.

Lemma run_selected M inputs t g g' :
  Forall (λ i, selects i = None ∨ selects i = Some t) inputs →
  selectedBlockType g = t →
  run M inputs g = Ok g' →
  selectedBlockType g' = t.
Proof.
  intros Hin. revert g. induction Hin as [| i inputs Hi _ IH]; intros g Ht.
  - by intros [= <-].
  - simpl. destruct (step M i g) as [g1 |] eqn:Hstep; [simpl | done].
    apply IH. rewrite (step_selected _ _ _ _ Hstep), Ht.
    by destruct Hi as [-> | ->].
Qed.

Lemma run_paused M inputs g g' :
  Forall (λ i, toggles i = false) inputs →
  menuActive g = true →
  run M inputs g = Ok g' →
  camera g' = camera g ∧ menuActive g' = true.
Proof.
  intros Hin. revert g. induction Hin as [| i inputs Hi _ IH]; intros g Hm.
  - by intros [= <-].
  - simpl. destruct (step M i g) as [g1 |] eqn:Hstep; [simpl | done].
    apply step_outcome in Hstep
      as [[Ht _] | [(_ & t & _ & ->) | (_ & _ & H)]].
    + congruence.
    + intros Hrun. by destruct (IH (setSelectedBlockType t g) Hm Hrun).
    + intros Hrun. destruct (IH g1) as [Hc Hm1]; [| exact Hrun |].
      * by rewrite (outcome_menu _ _ _ H).
      * split; [| exact Hm1].
        rewrite Hc. by apply (outcome_camera_paused M).
Qed.

(** ** Block selection *)

Lemma throw_numeric N t g :
  (N, t) ∈ [(1%nat, grass); (2%nat, dirt); (3%nat, sand); (4%nat, stone)] →
  throw (str N) g = Ok (setSelectedBlockType t g).
Proof.
  intros H. unfold throw. rewrite throw_lookup.
  repeat (apply elem_of_cons in H as [[= -> ->] | H]; [reflexivity |]).
  by apply elem_of_nil in H.
Qed.

Lemma placeBlock_spawn_type g g' :
  placeBlock g = Ok g' →
  selectedBlockType g' = selectedBlockType g
  ∧ (block_views g' = block_views g
     ∨ ∃ p, block_views g' = block_views g ++ [(p, selectedBlockType g)]).
Proof.
  intros [-> | [-> | [p ->]]]%placeBlock_outcome.
  - split; [done | by left].
  - split; [done | by left].
  - split; [done |]. right. exists p.
    rewrite block_views_createNewBlock. by destruct p.
Qed.

(** C5.  Key [N] of 1, 2, 3, 4 sets the selected type to grass, dirt, sand,
    stone respectively.  After it, through any further inputs (frames,
    clicks, movement keys, pointer travel, menu toggles, the same key again)
    among which no other numeric key occurs, the selection is still that
    type, and a left click made then adds nothing or exactly one block of
    that type; when the nearest hit is within reach it adds the block. *)
Theorem numeric_key_selection_retained
    (M : MathLib) (N : nat) (t : BlockType) (inputs : list Input)
    (g g1 : MyGame) :
  (N, t) ∈ [(1%nat, grass); (2%nat, dirt); (3%nat, sand); (4%nat, stone)] →
  Forall (λ i, selects i = None ∨ selects i = Some t) inputs →
  run M (Event (str N) :: inputs) g = Ok g1 →
  throw (str N) g = Ok (setSelectedBlockType t g)
  ∧ selectedBlockType (setSelectedBlockType t g) = t
  ∧ selectedBlockType g1 = t
  ∧ (∀ g2, throw "mouse1" g1 = Ok g2 →
       selectedBlockType g2 = t
       ∧ (block_views g2 = block_views g1
          ∨ ∃ p, block_views g2 = block_views g1 ++ [(p, t)]))
  ∧ (∀ e n b,
       nearest g1 = Some e →
       getPythonTag (into_node e) (scene g1) = Some n →
       find_node n (scene g1) = Some b →
       distance_lt (node_pos b) (cam_pos (camera g1)) 14 = true →
       ∃ g2, throw "mouse1" g1 = Ok g2
         ∧ block_views g2 =
             block_views g1
               ++ [(vadd (node_pos b) (vscale (surface_normal e) 2), t)]).
Proof.
  intros HN Hin Hrun.
  pose proof (throw_numeric N t g HN) as Hkey.
  assert (selectedBlockType g1 = t) as Hsel.
  { rewrite run_cons in Hrun.
    change (step M (Event (str N)) g) with (throw (str N) g) in Hrun.
    rewrite Hkey in Hrun. unfold bind in Hrun.
    by apply (run_selected M inputs t (setSelectedBlockType t g)). }
  split_and!.
  - exact Hkey.
  - reflexivity.
  - exact Hsel.
  - intros g2. rewrite throw_mouse1.
    intros [H1 H2]%placeBlock_spawn_type. rewrite Hsel in H1, H2. done.
  - intros e n b He Hn Hb Hd. rewrite throw_mouse1.
    rewrite (placeBlock_hit g1 e n b He Hn Hb), Hd. cbv zeta.
    eexists. split; [reflexivity |].
    rewrite block_views_createNewBlock, Hsel. reflexivity.
Qed.

Lemma numeric_key_selection_retained_witness :
  selectedBlockType
    <$> run heading0_math
          [Event "3"; Event "mouse1"; Event "w"; Event "escape";
           Frame (1 # 10);
           Event "3"; PointerAt 2 2; Frame (1 # 10); Event "escape"]
          (stack_world 10)
  = Ok sand.
Proof.
  destruct (run heading0_math
              [Event "3"; Event "mouse1"; Event "w"; Event "escape";
           Frame (1 # 10);
               Event "3"; PointerAt 2 2; Frame (1 # 10); Event "escape"]
              (stack_world 10)) as [g1 |] eqn:Hrun.
  - destruct (numeric_key_selection_retained heading0_math 3 sand
                [Event "mouse1"; Event "w"; Event "escape"; Frame (1 # 10);
                 Event "3"; PointerAt 2 2; Frame (1 # 10); Event "escape"]
                (stack_world 10) g1) as (_ & _ & H & _).
    + apply (bool_decide_unpack _). vm_compute. exact I.
    + repeat constructor; first [left; reflexivity | right; reflexivity].
    + exact Hrun.
    + simpl. by rewrite H.
  - vm_compute in Hrun. discriminate Hrun.
Defined.

(** ** Pause *)

(** C6.  While the menu is open a frame of [update] returns the state
    exactly as it was, camera included, whichever keys are held and wherever
    the pointer is.  This lasts until the menu is toggled: after any inputs
    among which neither the escape key nor the "Continue" button occurs, the
    camera is where it was, the menu is still open, and a frame is still a
    no-op. *)
Theorem update_paused_is_noop
    (M : MathLib) (dt : Q) (inputs : list Input) (g g' : MyGame) :
  menuActive g = true →
  Forall (λ i, toggles i = false) inputs →
  run M inputs g = Ok g' →
  update M dt g = Ok g
  ∧ camera g' = camera g
  ∧ menuActive g' = true
  ∧ update M dt g' = Ok g'.
Proof.
  intros Hm Hin Hrun.
  destruct (run_paused M inputs g g' Hin Hm Hrun) as [Hc Hm'].
  split_and!; try done; by apply update_paused.
Qed.

Lemma update_paused_is_noop_witness :
  update heading0_math (1 # 10) (paused_world 10) = Ok (paused_world 10)
  ∧ camera
      <$> run heading0_math
            [Event "w"; Event "space"; PointerAt 9 9; Frame (1 # 10);
             Event "mouse1"; Frame (1 # 2); Event "mouse3"; Frame 1]
            (paused_world 10)
      = Ok (camera (paused_world 10)).
Proof.
  destruct (run heading0_math
              [Event "w"; Event "space"; PointerAt 9 9; Frame (1 # 10);
               Event "mouse1"; Frame (1 # 2); Event "mouse3"; Frame 1]
              (paused_world 10)) as [g1 |] eqn:Hrun.
  - destruct (update_paused_is_noop heading0_math (1 # 10)
                [Event "w"; Event "space"; PointerAt 9 9; Frame (1 # 10);
                 Event "mouse1"; Frame (1 # 2); Event "mouse3"; Frame 1]
                (paused_world 10) g1) as (Hu & Hc & _).
    + reflexivity.
    + repeat constructor.
    + exact Hrun.
    + split; [exact Hu |]. simpl. by rewrite Hc.
  - vm_compute in Hrun. discriminate Hrun.
Defined.

(** ** Mouse look *)

Lemma camera_spawn_all (l : list (Vec3 * BlockType)) g :
  camera (foldl spawn g l) = camera g.
Proof.
  revert g. induction l as [| b l IH]; intros g; [done |].
  simpl. by rewrite IH.
Qed.

Lemma init_level px py : camera_level (init px py).
Proof.
  unfold camera_level, init.
  change (camera (captureMouse (setupCamera ?g)))
    with (setPos (V3 0 0 3) (camera g)).
  rewrite generateTerrain_spawn, camera_spawn_all.
  split_and!; [done | done | reflexivity].
Qed.

(** From start-up on the object has no [globalClock] attribute: no handler
    assigns one. *)
Lemma globalClock_spawn_all (l : list (Vec3 * BlockType)) g :
  globalClock (foldl spawn g l) = globalClock g.
Proof.
  revert g. induction l as [| b l IH]; intros g; [done |].
  simpl. by rewrite IH.
Qed.

Lemma flags_spawn_all (l : list (Vec3 * BlockType)) g :
  menuActive (foldl spawn g l) = menuActive g.
Proof.
  revert g. induction l as [| b l IH]; intros g; [done |].
  simpl. by rewrite IH.
Qed.

Lemma globalClock_captured g :
  globalClock (captureMouse (setupCamera g)) = globalClock g
  ∧ menuActive (captureMouse (setupCamera g)) = menuActive g
  ∧ cameraSwingActivated (captureMouse (setupCamera g)) = true.
Proof. done. Qed.

Lemma init_no_clock px py :
  globalClock (init px py) = None
  ∧ menuActive (init px py) = false
  ∧ cameraSwingActivated (init px py) = true.
Proof.
  unfold init. cbv zeta. rewrite generateTerrain_spawn.
  destruct (globalClock_captured (foldl spawn (fresh px py) terrain_spec))
    as (-> & -> & ->).
  rewrite globalClock_spawn_all, flags_spawn_all. done.
Qed.

Lemma update_no_clock M dt g :
  menuActive g = false → globalClock g = None →
  update M dt g = Raise AttributeError.
Proof. unfold update. by intros -> ->. Qed.

Lemma outcome_clock M g g' :
  outcome M g g' → globalClock g' = globalClock g.
Proof.
  intros H. outcome_cases H; try reflexivity.
  unfold frame_result. by destruct (cameraSwingActivated g).
Qed.

Lemma toggleMenu_clock g :
  globalClock (toggleMenu g) = globalClock g
  ∧ camera (toggleMenu g) = camera g.
Proof. unfold toggleMenu. by destruct (menuActive g). Qed.

Lemma step_clock M i g g' :
  step M i g = Ok g' → globalClock g' = globalClock g.
Proof.
  intros [[_ ->] | [(_ & t & _ & ->) | (_ & _ & H)]]%step_outcome.
  - apply toggleMenu_clock.
  - done.
  - by apply (outcome_clock M).
Qed.

Lemma update_fixes_without_clock M dt g g' :
  globalClock g = None → update M dt g = Ok g' → g' = g.
Proof.
  intros Hc Hu. destruct (menuActive g) eqn:Hm.
  - rewrite (update_paused _ _ _ Hm) in Hu. by injection Hu as <-.
  - by rewrite (update_no_clock _ _ _ Hm Hc) in Hu.
Qed.

Lemma step_camera_without_clock M i g g' :
  globalClock g = None → step M i g = Ok g' → camera g' = camera g.
Proof.
  intros Hc [[_ ->] | [(_ & t & _ & ->) | (_ & _ & H)]]%step_outcome.
  - apply toggleMenu_clock.
  - done.
  - destruct H as
      [ ->
      | [-> | [-> | [p ->]]]%placeBlock_outcome
      | [-> | [-> | (n & c & ->)]]%removeBlock_outcome
      | k v ->
      | dt Hu
      | x y ->
      | q -> ]; try reflexivity.
    by rewrite (update_fixes_without_clock _ _ _ _ Hc Hu).
Qed.

Lemma run_without_clock M inputs g g' :
  globalClock g = None → run M inputs g = Ok g' →
  globalClock g' = None ∧ camera g' = camera g.
Proof.
  revert g. induction inputs as [| i inputs IH]; intros g Hc; simpl.
  - by intros [= <-].
  - destruct (step M i g) as [g1 |] eqn:Hstep; [simpl | done].
    intros Hrun. destruct (IH g1) as [Hc' Hcam]; [| exact Hrun |].
    + by rewrite (step_clock _ _ _ _ Hstep).
    + split; [exact Hc' |].
      rewrite Hcam. by apply (step_camera_without_clock M i).
Qed.

(** C7 (a defect of the code: the claimed mouse look is never reached).
    With the menu closed, the first thing [update] does is read
    [self.globalClock], an attribute the object does not have at start-up
    and that no handler gives it.  So in every state the program reaches,
    a frame with the menu closed raises [AttributeError] before the
    mouse-look code, whether or not camera swing is active and however the
    mouse has moved; the only frames that return are those with the menu
    open, and they return the state as it was.  The camera is therefore
    where start-up put it after any inputs: pitch in [-90, 90] and roll 0
    hold, but the yaw never decreases when the mouse moves rightwards.
    The first frame after start-up already is such a frame: menu closed,
    camera swing active. *)
Theorem update_mouse_look_raises
    (M : MathLib) (dt : Q) (inputs : list Input) (g0 g : MyGame) :
  globalClock g0 = None →
  run M inputs g0 = Ok g →
  (menuActive g = false → update M dt g = Raise AttributeError)
  ∧ (∀ g', update M dt g = Ok g' → g' = g)
  ∧ camera g = camera g0
  ∧ (camera_level g0 → camera_level g)
  ∧ (∀ px py,
       globalClock (init px py) = None
       ∧ menuActive (init px py) = false
       ∧ cameraSwingActivated (init px py) = true
       ∧ camera_level (init px py)
       ∧ update M dt (init px py) = Raise AttributeError).
Proof.
  intros Hc Hrun.
  destruct (run_without_clock _ _ _ _ Hc Hrun) as [Hc' Hcam].
  split_and!.
  - intros Hm. by apply update_no_clock.
  - intros g'. by apply update_fixes_without_clock.
  - exact Hcam.
  - by apply (run_level M inputs).
  - intros px py. destruct (init_no_clock px py) as (H1 & H2 & H3).
    split_and!; [exact H1 | exact H2 | exact H3 | apply init_level |].
    by apply update_no_clock.
Qed.

Lemma update_mouse_look_raises_witness :
  cameraSwingActivated (stack_world 10) = true
  ∧ menuActive (stack_world 10) = false
  ∧ ∃ g, run heading0_math [PointerAt 50 0] (stack_world 10) = Ok g
      ∧ update heading0_math (1 # 10) g = Raise AttributeError
      ∧ cam_h (camera g) = 0.
Proof.
  split; [reflexivity |]. split; [reflexivity |].
  destruct (run heading0_math [PointerAt 50 0] (stack_world 10))
    as [g |] eqn:Hrun.
  - destruct (update_mouse_look_raises heading0_math (1 # 10)
                [PointerAt 50 0] (stack_world 10) g)
      as (Hraise & _ & Hcam & _).
    + reflexivity.
    + exact Hrun.
    + exists g. split; [reflexivity |]. split.
      * apply Hraise. vm_compute in Hrun. injection Hrun as <-. reflexivity.
      * rewrite Hcam. reflexivity.
  - vm_compute in Hrun. discriminate Hrun.
Defined.

(** * Further properties of the code *)

(** ** Pause and mouse capture kept in step *)

Lemma spawn_all_only_scene (l : list (Vec3 * BlockType)) g :
  foldl spawn g l = set_scene (scene (foldl spawn g l)) g.
Proof.
  revert g. induction l as [| b l IH]; intros g; simpl.
  - by destruct g.
  - rewrite (IH (spawn g b)) at 1. reflexivity.
Qed.

Lemma spawn_all_flags (l : list (Vec3 * BlockType)) g :
  menuActive (foldl spawn g l) = menuActive g
  ∧ menuFrame_hidden (foldl spawn g l) = menuFrame_hidden g.
Proof. rewrite spawn_all_only_scene. by destruct g. Qed.

Lemma mode_ok_captured g :
  menuActive g = false → menuFrame_hidden g = true →
  mode_ok (captureMouse (setupCamera g)).
Proof. intros Hm Hf. unfold mode_ok. simpl. by rewrite Hm, Hf. Qed.

Lemma mode_ok_init px py : mode_ok (init px py).
Proof.
  unfold init. cbv zeta. rewrite generateTerrain_spawn.
  destruct (spawn_all_flags terrain_spec (fresh px py)) as [Hm Hf].
  apply mode_ok_captured.
  - rewrite Hm. reflexivity.
  - rewrite Hf. reflexivity.
Qed.

Lemma mode_ok_step M i g g' : step M i g = Ok g' → mode_ok g → mode_ok g'.
Proof.
  unfold mode_ok.
  intros [[_ ->] | [(_ & t & _ & ->) | (_ & _ & H)]]%step_outcome
    (H1 & H2 & H3 & H4).
  - unfold toggleMenu. destruct (menuActive g) eqn:Hm; simpl; done.
  - done.
  - destruct H as
      [ ->
      | [-> | [-> | [p ->]]]%placeBlock_outcome
      | [-> | [-> | (n & c & ->)]]%removeBlock_outcome
      | k v ->
      | dt [[_ ->] | [_ [pos' ->]]]%update_cases
      | x y ->
      | q -> ]; try done.
    unfold frame_result. destruct (cameraSwingActivated g) eqn:Hs; simpl;
      rewrite ?Hs; done.
Qed.

(** X8.  From start-up on, along every run, the menu frame is shown exactly
    while the menu is active, the cursor is hidden and the mouse confined
    exactly while mouse look is on, and mouse look is on whenever the menu
    is closed (it can also be on while the menu is open, after a right
    click).  Every input preserves this. *)
Theorem mode_kept_in_step
    (M : MathLib) (inputs : list Input) (g g' : MyGame) :
  mode_ok g →
  run M inputs g = Ok g' →
  mode_ok g' ∧ (∀ px py, mode_ok (init px py)).
Proof.
  intros Hg Hrun. split; [| apply mode_ok_init].
  revert g Hg Hrun. induction inputs as [| i inputs IH]; intros g Hg; simpl.
  - by intros [= <-].
  - destruct (step M i g) as [g1 |] eqn:Hstep; [simpl | done].
    apply IH. by apply (mode_ok_step M i g).
Qed.

Lemma mode_kept_in_step_witness :
  ∃ g', run heading0_math
          [Event "escape"; Event "mouse3"; Frame (1 # 10); Event "escape"]
          (stack_world 14) = Ok g'
    ∧ menuFrame_hidden g' = negb (menuActive g')
    ∧ cursor_hidden (win g') = cameraSwingActivated g'.
Proof.
  destruct (run heading0_math
              [Event "escape"; Event "mouse3"; Frame (1 # 10); Event "escape"]
              (stack_world 14)) as [g' |] eqn:Hrun.
  - destruct (mode_kept_in_step heading0_math
                [Event "escape"; Event "mouse3"; Frame (1 # 10);
                 Event "escape"]
                (stack_world 14) g') as ((H1 & H2 & _) & _).
    + unfold mode_ok. vm_compute. split_and!; try reflexivity.
    + exact Hrun.
    + exists g'. done.
  - vm_compute in Hrun. discriminate Hrun.
Defined.

(** ** Selection and the binding table *)

(** X9.  The last numeric key wins: after any inputs the selected type is
    that of the last key among 1, 2, 3, 4 pressed, or the type selected
    before if none was. *)
Theorem last_numeric_key_wins
    (M : MathLib) (inputs : list Input) (g g' : MyGame) :
  run M inputs g = Ok g' →
  selectedBlockType g' = last_selected (selectedBlockType g) inputs.
Proof.
  revert g. induction inputs as [| i inputs IH]; intros g; simpl.
  - by intros [= <-].
  - destruct (step M i g) as [g1 |] eqn:Hstep; [simpl | done].
    intros Hrun. rewrite (IH g1 Hrun).
    by rewrite (step_selected _ _ _ _ Hstep).
Qed.

Lemma last_numeric_key_wins_witness :
  selectedBlockType
    <$> run heading0_math
          [Event "2"; Event "mouse1"; Event "4"; Event "escape";
           Frame (1 # 10); Event "3"; Event "escape"; Event "w"]
          (stack_world 10)
  = Ok sand.
Proof.
  destruct (run heading0_math
              [Event "2"; Event "mouse1"; Event "4"; Event "escape";
               Frame (1 # 10); Event "3"; Event "escape"; Event "w"]
              (stack_world 10)) as [g' |] eqn:Hrun.
  - simpl. f_equal.
    rewrite (last_numeric_key_wins _ _ _ _ Hrun). vm_compute. reflexivity.
  - vm_compute in Hrun. discriminate Hrun.
Defined.

(** X10.  [setupControls] accepts exactly nineteen events; any other event
    leaves the state untouched. *)
Theorem unbound_events_ignored (name : string) (g : MyGame) :
  name ∉ bound_events →
  throw name g = Ok g
  ∧ dom setupControls = list_to_set bound_events.
Proof.
  intros Hn. split.
  - unfold throw. rewrite throw_lookup.
    repeat (destruct (decide (name = _)) as [-> | _];
            [exfalso; apply Hn; apply (bool_decide_unpack _); vm_compute; exact I |]).
    reflexivity.
  - rewrite setupControls_bindings. rewrite !dom_insert_L, dom_empty_L.
    apply set_eq. intros x. unfold bound_events. simpl.
    rewrite !elem_of_union, !elem_of_singleton, elem_of_empty. tauto.
Qed.

Lemma unbound_events_ignored_witness :
  throw "mouse2" (stack_world 10) = Ok (stack_world 10)
  ∧ throw "5" (stack_world 10) = Ok (stack_world 10).
Proof.
  split.
  - apply (unbound_events_ignored "mouse2" (stack_world 10)).
    apply (bool_decide_unpack _). vm_compute. exact I.
  - apply (unbound_events_ignored "5" (stack_world 10)).
    apply (bool_decide_unpack _). vm_compute. exact I.
Defined.

Lemma set_keyMap_same g : set_keyMap (keyMap g) g = g.
Proof. by destruct g. Qed.

(** X11.  Pressing a movement key marks its action held and nothing else;
    releasing it clears the mark.  Pressed and released from a state in
    which the action was not held, the game is back in exactly the state it
    started from. *)
Theorem key_press_release_round_trip
    (M : MathLib) (key action : string) (g : MyGame) :
  (key, action) ∈ movement_bindings →
  keyMap g !! action = Some false →
  throw key g = Ok (updateKeyMap action true g)
  ∧ keyMap (updateKeyMap action true g) !! action = Some true
  ∧ (∀ other, other ≠ action →
       keyMap (updateKeyMap action true g) !! other = keyMap g !! other)
  ∧ throw (key +:+ "-up") (updateKeyMap action true g) = Ok g
  ∧ run M [Event key; Event (key +:+ "-up")] g = Ok g.
Proof.
  intros Hin Hoff.
  assert (throw key g = Ok (updateKeyMap action true g)
          ∧ ∀ g0, throw (key +:+ "-up") g0 = Ok (updateKeyMap action false g0))
    as [Hdown Hup].
  { unfold throw, movement_bindings in *.
    repeat (apply elem_of_cons in Hin as [[= -> ->] | Hin];
            [split; [| intros g0]; rewrite throw_lookup; reflexivity |]).
    by apply elem_of_nil in Hin. }
  assert (updateKeyMap action false (updateKeyMap action true g) = g) as Hback.
  { unfold updateKeyMap. simpl.
    rewrite insert_insert_eq, (insert_id _ _ _ Hoff).
    change (set_keyMap (keyMap g) (set_keyMap ?m g)) with (set_keyMap (keyMap g) g).
    apply set_keyMap_same. }
  split_and!.
  - exact Hdown.
  - simpl. apply lookup_insert_eq.
  - intros other Hne. simpl. by apply lookup_insert_ne.
  - by rewrite Hup, Hback.
  - rewrite run_cons. change (step M (Event key) g) with (throw key g).
    rewrite Hdown. unfold bind at 1. rewrite run_cons.
    change (step M (Event (key +:+ "-up")) ?s) with (throw (key +:+ "-up") s).
    rewrite Hup, Hback. reflexivity.
Qed.

Lemma key_press_release_round_trip_witness :
  run heading0_math [Event "lshift"; Event "lshift-up"] (stack_world 10)
  = Ok (stack_world 10).
Proof.
  apply (key_press_release_round_trip heading0_math "lshift" "down"
           (stack_world 10)).
  - apply (bool_decide_unpack _). vm_compute. exact I.
  - vm_compute. reflexivity.
Defined.

(** ** Only clicks change the world *)

Lemma throw_keeps_scene name g g' :
  name ≠ "mouse1" → name ≠ "mouse3" →
  throw name g = Ok g' → scene g' = scene g.
Proof.
  intros H1 H3. unfold throw. rewrite throw_lookup.
  repeat (destruct (decide (name = _)) as [-> | ?]); try done;
    intros [= <-]; try reflexivity.
  unfold toggleMenu. by destruct (menuActive g).
Qed.

(** X12.  Blocks and their tags change through the two mouse buttons only:
    over any inputs that contain neither click (frames, keys, menu toggles,
    pointer travel, traversals) the scene is exactly as it was. *)
Theorem only_clicks_change_scene
    (M : MathLib) (inputs : list Input) (g g' : MyGame) :
  Forall (λ i, is_click i = false) inputs →
  run M inputs g = Ok g' →
  scene g' = scene g.
Proof.
  intros Hin. revert g. induction Hin as [| i inputs Hi _ IH]; intros g.
  - by intros [= <-].
  - simpl. destruct (step M i g) as [g1 |] eqn:Hstep; [simpl | done].
    intros Hrun. rewrite (IH g1 Hrun).
    destruct i as [name | | | dt | x y | q]; simpl in Hstep.
    + simpl in Hi. apply bool_decide_eq_false_1 in Hi.
      apply (throw_keeps_scene name); [naive_solver | naive_solver | done].
    + injection Hstep as <-. unfold toggleMenu. by destruct (menuActive g).
    + done.
    + by destruct (update_cases _ _ _ _ Hstep) as [[_ ->] | [_ [pos' ->]]];
        [| unfold frame_result; destruct (cameraSwingActivated g)].
    + by injection Hstep as <-.
    + by injection Hstep as <-.
Qed.

Lemma only_clicks_change_scene_witness :
  ∃ g', run heading0_math
          [Event "w"; Event "escape"; Frame (1 # 2); Event "3"; PointerAt 4 4;
           Frame (1 # 2); ContinueButton]
          (stack_world 10) = Ok g'
    ∧ scene g' = scene (stack_world 10).
Proof.
  assert (∃ g', run heading0_math
                  [Event "w"; Event "escape"; Frame (1 # 2); Event "3";
                   PointerAt 4 4; Frame (1 # 2); ContinueButton]
                  (stack_world 10) = Ok g') as [g' Hrun]
    by (eexists; vm_compute; reflexivity).
  exists g'. split; [exact Hrun |].
  apply (only_clicks_change_scene heading0_math
           [Event "w"; Event "escape"; Frame (1 # 2); Event "3";
            PointerAt 4 4; Frame (1 # 2); ContinueButton]
           (stack_world 10) g');
    [repeat constructor | exact Hrun].
Defined.

(** ** The scene's bookkeeping *)

Lemma scene_ok_elem sg n b :
  scene_ok sg → (n, b) ∈ render sg →
  (n < next_node sg)%nat ∧ owner_tag sg !! node_collider b = Some n.
Proof.
  intros (_ & H & _) Hin.
  by apply (proj1 (Forall_forall _ _) H (n, b)).
Qed.

Lemma scene_ok_tag sg c n :
  scene_ok sg → owner_tag sg !! c = Some n →
  (c < next_node sg)%nat ∧ ∃ b, (n, b) ∈ render sg ∧ node_collider b = c.
Proof.
  intros (_ & _ & H) Hc. destruct (H c n Hc) as [Hlt Hex]. split; [done |].
  apply Exists_exists in Hex as ([n' b] & Hin & Hn & Hb). simpl in *.
  subst. by exists b.
Qed.

Lemma NoDup_fst_functional {A B} (l : list (A * B)) k v1 v2 :
  NoDup (l.*1) → (k, v1) ∈ l → (k, v2) ∈ l → v1 = v2.
Proof.
  induction l as [| [k' v'] l IH]; simpl; [by intros _ ?%elem_of_nil |].
  intros [Hnin Hnd]%NoDup_cons [[= -> ->] | H1]%elem_of_cons
    [[= ->] | H2]%elem_of_cons; try done.
  - destruct Hnin. apply list_elem_of_fmap. by exists (k', v2).
  - destruct Hnin. apply list_elem_of_fmap. by exists (k', v1).
  - by apply IH.
Qed.

Lemma find_node_elem sg n b :
  NoDup ((render sg).*1) →
  find_node n sg = Some b ↔ (n, b) ∈ render sg.
Proof.
  intros Hnd. unfold find_node. split.
  - destruct (list_find _ _) as [[i [n' b']] |] eqn:Hf; [| done].
    intros [= <-]. apply list_find_Some in Hf as (Hi & Hn & _).
    simpl in Hn. subst. by eapply list_elem_of_lookup_2.
  - intros Hin.
    destruct (list_find_elem_of (λ nb : NodeId * BlockNode, nb.1 = n)
                (render sg) (n, b) Hin eq_refl) as [[i [n' b']] Hf].
    rewrite Hf. simpl. f_equal.
    apply list_find_Some in Hf as (Hi & Hn & _). simpl in Hn. subst.
    apply (NoDup_fst_functional (render sg) n); [done | | done].
    by eapply list_elem_of_lookup_2.
Qed.

Lemma scene_ok_empty : scene_ok empty_scene.
Proof.
  unfold scene_ok. simpl. split_and!.
  - constructor.
  - constructor.
  - apply map_Forall_empty.
Qed.

Lemma scene_ok_attachBlock x y z t sg :
  scene_ok sg → scene_ok (attachBlock x y z t sg).
Proof.
  intros Hok. pose proof Hok as (Hnd & Hall & Htags).
  unfold scene_ok, attachBlock. simpl. split_and!.
  - rewrite fmap_app. simpl. apply NoDup_app. split_and!.
    + done.
    + intros n Hin ->%list_elem_of_singleton.
      apply list_elem_of_fmap in Hin as ([n' b] & Heq & Hin).
      apply (scene_ok_elem _ _ _ Hok) in Hin as [Hlt _]. simpl in Heq. lia.
    + apply NoDup_singleton.
  - apply Forall_app. split.
    + eapply Forall_impl; [exact Hall |]. intros [n b] [Hlt Htag]. simpl in *.
      split; [lia |]. rewrite lookup_insert_ne; [done |].
      intros Heq. destruct (Htags _ _ Htag) as [Hc _]. simpl in Hc. lia.
    + constructor; [| constructor]. simpl. split; [lia |].
      apply lookup_insert_eq.
  - apply map_Forall_insert_2.
    + split; [lia |]. apply Exists_app. right. by constructor.
    + intros c n Hc. destruct (Htags c n Hc) as [Hlt Hex].
      split; [lia |]. apply Exists_app. by left.
Qed.

Lemma scene_ok_remove sg c n :
  scene_ok sg → owner_tag sg !! c = Some n →
  scene_ok (removeNode n (clearPythonTag c sg)).
Proof.
  intros Hok Hc. pose proof Hok as (Hnd & Hall & Htags).
  destruct (scene_ok_tag _ _ _ Hok Hc) as (_ & b & Hb & Hbc).
  unfold scene_ok, removeNode, clearPythonTag. simpl. split_and!.
  - apply NoDup_fmap_fst.
    + intros k v1 v2 [_ H1]%list_elem_of_filter [_ H2]%list_elem_of_filter.
      by apply (NoDup_fst_functional (render sg) k).
    + apply NoDup_filter. by apply (NoDup_fmap_1 fst).
  - apply Forall_forall. intros [n' b'] [Hne Hin]%list_elem_of_filter.
    simpl in Hne. destruct (scene_ok_elem _ _ _ Hok Hin) as [Hlt Htag].
    simpl. split; [done |]. rewrite lookup_delete_ne; [done |].
    intros Heq. rewrite <- Heq in Htag. unfold NodeId in *. congruence.
  - intros c' n' Hc'. apply lookup_delete_Some in Hc' as [Hne Hc'].
    destruct (scene_ok_tag _ _ _ Hok Hc') as (Hlt & b' & Hb' & Hbc').
    split; [done |]. apply Exists_exists. exists (n', b'). split; [| done].
    apply list_elem_of_filter. split; [| done]. simpl. intros ->.
    assert (b = b') as <-
      by (by apply (NoDup_fst_functional (render sg) n)).
    unfold NodeId in *. congruence.
Qed.

Lemma removeBlock_scene g g' :
  removeBlock g = Ok g' →
  scene g' = scene g
  ∨ ∃ n c, getPythonTag c (scene g) = Some n
           ∧ scene g' = removeNode n (clearPythonTag c (scene g)).
Proof.
  unfold removeBlock.
  destruct (decide _) as [_ |]; [| intros [= <-]; by left].
  unfold getEntry, nodePos. simpl.
  destruct (sortEntries (rayQueue g) !! 0%nat) as [rayHit |]; [| done]. simpl.
  destruct (getPythonTag (into_node rayHit) (scene g)) as [n |] eqn:Hn;
    [| done].
  simpl. destruct (find_node n (scene g)) as [b |]; [| done]. simpl.
  destruct (distance_lt _ _ _); intros [= <-].
  - right. by exists n, (into_node rayHit).
  - by left.
Qed.

Lemma placeBlock_scene g g' :
  placeBlock g = Ok g' →
  scene g' = scene g
  ∨ ∃ p, scene g' =
           attachBlock (vx p) (vy p) (vz p) (selectedBlockType g) (scene g).
Proof.
  intros [-> | [-> | [p ->]]]%placeBlock_outcome;
    [by left | by left | right; by exists p].
Qed.

Lemma step_scene M i g g' :
  step M i g = Ok g' →
  scene g' = scene g
  ∨ (∃ p t, scene g' = attachBlock (vx p) (vy p) (vz p) t (scene g))
  ∨ (∃ n c, getPythonTag c (scene g) = Some n
            ∧ scene g' = removeNode n (clearPythonTag c (scene g))).
Proof.
  intros [[_ ->] | [(_ & t & _ & ->) | (_ & _ & H)]]%step_outcome.
  - left. unfold toggleMenu. by destruct (menuActive g).
  - by left.
  - destruct H as
      [ ->
      | [-> | [p ->]]%placeBlock_scene
      | [-> | (n & c & Hc & ->)]%removeBlock_scene
      | k v ->
      | dt [[_ ->] | [_ [pos' ->]]]%update_cases
      | x y ->
      | q -> ]; try (by left).
    + right; left. by exists p, (selectedBlockType g).
    + right; right. by exists n, c.
    + left. unfold frame_result. by destruct (cameraSwingActivated g).
Qed.

Lemma scene_ok_spawn_all (l : list (Vec3 * BlockType)) g :
  scene_ok (scene g) → scene_ok (scene (foldl spawn g l)).
Proof.
  revert g. induction l as [| b l IH]; intros g Hok; [done |].
  simpl. apply IH. unfold spawn, createNewBlock. simpl.
  by apply scene_ok_attachBlock.
Qed.

Lemma scene_captureMouse g : scene (captureMouse g) = scene g.
Proof. reflexivity. Qed.

Lemma scene_setupCamera g : scene (setupCamera g) = scene g.
Proof. reflexivity. Qed.

Lemma scene_init px py :
  scene (init px py) = scene (foldl spawn (fresh px py) terrain_spec).
Proof.
  unfold init. cbv zeta.
  by rewrite scene_captureMouse, scene_setupCamera, generateTerrain_spawn.
Qed.

(** X14.  The scene's bookkeeping is kept from start-up on and along every
    run, whatever the clicks hit: node identities are never reused, every
    block in the scene has its collision node tagged with the block itself,
    and every ['owner'] tag names a block that is in the scene and sits on
    that block's own collision node. *)
Theorem scene_stays_consistent
    (M : MathLib) (inputs : list Input) (g g' : MyGame) :
  scene_ok (scene g) →
  run M inputs g = Ok g' →
  scene_ok (scene g') ∧ (∀ px py, scene_ok (scene (init px py))).
Proof.
  intros Hok Hrun. split.
  - revert g Hok Hrun. induction inputs as [| i inputs IH]; intros g Hok; simpl.
    + by intros [= <-].
    + destruct (step M i g) as [g1 |] eqn:Hstep; [simpl | done].
      apply IH.
      destruct (step_scene _ _ _ _ Hstep)
        as [-> | [(p & t & ->) | (n & c & Hc & ->)]].
      * done.
      * by apply scene_ok_attachBlock.
      * by apply scene_ok_remove.
  - intros px py. rewrite scene_init. apply scene_ok_spawn_all.
    apply scene_ok_empty.
Qed.

Lemma scene_stays_consistent_witness :
  ∃ g', run heading0_math
          [Event "mouse1"; Traverse [top_hit 10]; Event "mouse3";
           Traverse [{| into_node := 3%nat; surface_normal := V3 0 0 1;
                        entry_dist := 11 |}];
           Event "2"; Event "mouse1"]
          (stack_world 10) = Ok g'
    ∧ scene_ok (scene g').
Proof.
  assert (∃ g', run heading0_math
                  [Event "mouse1"; Traverse [top_hit 10]; Event "mouse3";
                   Traverse [{| into_node := 3%nat;
                                surface_normal := V3 0 0 1;
                                entry_dist := 11 |}];
                   Event "2"; Event "mouse1"]
                  (stack_world 10) = Ok g') as [g' Hrun].
  { eexists. vm_compute. reflexivity. }
  exists g'. split; [exact Hrun |].
  apply (scene_stays_consistent heading0_math
           [Event "mouse1"; Traverse [top_hit 10]; Event "mouse3";
            Traverse [{| into_node := 3%nat; surface_normal := V3 0 0 1;
                         entry_dist := 11 |}];
            Event "2"; Event "mouse1"]
           (stack_world 10) g'); [| exact Hrun].
  apply (bool_decide_unpack _). vm_compute. exact I.
Defined.

Lemma rotation_ok_attachBlock x y z t sg :
  rotation_ok sg → rotation_ok (attachBlock x y z t sg).
Proof.
  unfold rotation_ok, attachBlock. simpl. intros H.
  apply Forall_app. split; [done |]. by repeat constructor.
Qed.

Lemma rotation_ok_remove sg c n :
  rotation_ok sg → rotation_ok (removeNode n (clearPythonTag c sg)).
Proof.
  unfold rotation_ok. simpl. intros H. apply Forall_forall.
  intros nb [_ Hin]%list_elem_of_filter.
  by apply (proj1 (Forall_forall _ _) H).
Qed.

Lemma rotation_ok_spawn_all (l : list (Vec3 * BlockType)) g :
  rotation_ok (scene g) → rotation_ok (scene (foldl spawn g l)).
Proof.
  revert g. induction l as [| b l IH]; intros g Hok; [done |].
  simpl. apply IH. unfold spawn, createNewBlock. simpl.
  by apply rotation_ok_attachBlock.
Qed.

(** X15.  Grass blocks, and only grass blocks, are turned by
    [(0, 90, 0)]: this holds for every block of the terrain and of every
    state a run reaches, whichever types were placed and removed. *)
Theorem only_grass_is_rotated
    (M : MathLib) (inputs : list Input) (g g' : MyGame) :
  rotation_ok (scene g) →
  run M inputs g = Ok g' →
  rotation_ok (scene g') ∧ (∀ px py, rotation_ok (scene (init px py))).
Proof.
  intros Hok Hrun. split.
  - revert g Hok Hrun. induction inputs as [| i inputs IH]; intros g Hok; simpl.
    + by intros [= <-].
    + destruct (step M i g) as [g1 |] eqn:Hstep; [simpl | done].
      apply IH.
      destruct (step_scene _ _ _ _ Hstep)
        as [-> | [(p & t & ->) | (n & c & Hc & ->)]].
      * done.
      * by apply rotation_ok_attachBlock.
      * by apply rotation_ok_remove.
  - intros px py. rewrite scene_init. apply rotation_ok_spawn_all.
    constructor.
Qed.

Lemma only_grass_is_rotated_witness :
  ∃ g', run heading0_math [Event "mouse1"; Event "4"; Event "mouse1"]
          (stack_world 10) = Ok g'
    ∧ rotation_ok (scene g').
Proof.
  assert (∃ g', run heading0_math [Event "mouse1"; Event "4"; Event "mouse1"]
                  (stack_world 10) = Ok g') as [g' Hrun].
  { eexists. vm_compute. reflexivity. }
  exists g'. split; [exact Hrun |].
  apply (only_grass_is_rotated heading0_math
           [Event "mouse1"; Event "4"; Event "mouse1"] (stack_world 10) g');
    [| exact Hrun].
  apply (bool_decide_unpack _). vm_compute. exact I.
Defined.

(** ** Clicks on a consistent scene *)

Lemma filter_keeps_all {A} (P : A → Prop) `{∀ x, Decision (P x)} (l : list A) :
  Forall P l → filter P l = l.
Proof.
  induction 1 as [| x l Hx _ IH]; [done |].
  rewrite filter_cons_True by done. by rewrite IH.
Qed.

Lemma filter_out_one {B} (l : list (nat * B)) n b :
  NoDup (l.*1) → (n, b) ∈ l →
  S (length (filter (λ nb, nb.1 ≠ n) l)) = length l.
Proof.
  induction l as [| [n' b'] l IH]; simpl; [by intros _ ?%elem_of_nil |].
  intros [Hnin Hnd]%NoDup_cons [[= <- <-] | Hin]%elem_of_cons.
  - rewrite filter_cons_False by (simpl; by intros ?).
    f_equal. f_equal. apply filter_keeps_all.
    apply Forall_forall. intros [n2 b2] Hin2. simpl. intros ->.
    apply Hnin. apply list_elem_of_fmap. by exists (n, b2).
  - assert (n' ≠ n) as Hne.
    { intros ->. apply Hnin. apply list_elem_of_fmap. by exists (n, b). }
    rewrite filter_cons_True by done. simpl. f_equal. by apply IH.
Qed.

(** X16.  On a consistent scene a click whose nearest hit is the collision
    node of a block that is in the scene never raises: both removal and
    placement return a state, and they act on that very block. *)
Theorem live_hit_never_raises
    (g : MyGame) (e : CollisionEntry) (n : NodeId) (b : BlockNode) :
  scene_ok (scene g) →
  nearest g = Some e →
  (n, b) ∈ render (scene g) →
  node_collider b = into_node e →
  getPythonTag (into_node e) (scene g) = Some n
  ∧ find_node n (scene g) = Some b
  ∧ (∃ g', removeBlock g = Ok g')
  ∧ (∃ g', placeBlock g = Ok g').
Proof.
  intros Hok He Hin Hcol.
  assert (getPythonTag (into_node e) (scene g) = Some n) as Hn.
  { rewrite <- Hcol. by apply (scene_ok_elem _ _ _ Hok Hin). }
  assert (find_node n (scene g) = Some b) as Hb.
  { apply find_node_elem; [apply Hok | done]. }
  split_and!; [done | done | |].
  - rewrite (removeBlock_hit g e n b He Hn Hb).
    destruct (distance_lt _ _ _); by eexists.
  - rewrite (placeBlock_hit g e n b He Hn Hb).
    destruct (distance_lt _ _ _); by eexists.
Qed.

Lemma live_hit_never_raises_witness :
  (∃ g', removeBlock (stack_world 10) = Ok g')
  ∧ (∃ g', placeBlock (stack_world 10) = Ok g').
Proof.
  destruct (live_hit_never_raises (stack_world 10) (top_hit 10) 0%nat
              dirt_block) as (_ & _ & Hr & Hp).
  - apply (bool_decide_unpack _). vm_compute. exact I.
  - vm_compute. reflexivity.
  - apply (bool_decide_unpack _). vm_compute. exact I.
  - reflexivity.
  - exact (conj Hr Hp).
Defined.

(** X17.  On a consistent scene a removal within reach takes exactly one
    block out of the world: the number of blocks drops by one, every other
    block stays, and the scene is consistent afterwards. *)
Theorem removeBlock_removes_exactly_one
    (g : MyGame) (e : CollisionEntry) (n : NodeId) (b : BlockNode) :
  scene_ok (scene g) →
  nearest g = Some e →
  getPythonTag (into_node e) (scene g) = Some n →
  find_node n (scene g) = Some b →
  distance_lt (node_pos b) (cam_pos (camera g)) 12 = true →
  ∃ g', removeBlock g = Ok g'
    ∧ S (length (render (scene g'))) = length (render (scene g))
    ∧ (∀ n' b', (n', b') ∈ render (scene g') ↔
                (n', b') ∈ render (scene g) ∧ n' ≠ n)
    ∧ scene_ok (scene g').
Proof.
  intros Hok He Hn Hb Hd.
  rewrite (removeBlock_hit g e n b He Hn Hb), Hd.
  eexists. split; [reflexivity |]. simpl. split_and!.
  - apply (filter_out_one _ n b); [apply Hok |].
    apply find_node_elem; [apply Hok | done].
  - intros n' b'. rewrite list_elem_of_filter. simpl. tauto.
  - by apply scene_ok_remove.
Qed.

Lemma removeBlock_removes_exactly_one_witness :
  ∃ g', removeBlock (stack_world 10) = Ok g'
    ∧ length (render (scene g')) = 1%nat.
Proof.
  destruct (removeBlock_removes_exactly_one (stack_world 10) (top_hit 10)
              0%nat dirt_block) as (g' & Hr & Hlen & _).
  - apply (bool_decide_unpack _). vm_compute. exact I.
  - vm_compute. reflexivity.
  - vm_compute. reflexivity.
  - vm_compute. reflexivity.
  - vm_compute. reflexivity.
  - exists g'. split; [exact Hr |].
    change (length (render (scene (stack_world 10)))) with 2%nat in Hlen.
    by injection Hlen.
Defined.

Lemma nearest_sorted_queue g e :
  nearest g = Some e →
  (∀ e', e' ∈ rayQueue g → entry_dist e' <= entry_dist e → e' = e) →
  nearest (sorted_queue g) = Some e.
Proof.
  intros He Huniq. unfold nearest, sorted_queue. simpl.
  destruct (nearest_cons _ _ He) as (rest & Hs).
  destruct (sortEntries_head _ _ _ Hs) as [Hin _].
  destruct (sortEntries (sortEntries (rayQueue g))) as [| e' rest'] eqn:Hs2.
  - apply (proj1 (sortEntries_nil_iff _)) in Hs2. rewrite Hs in Hs2. done.
  - simpl. f_equal.
    destruct (sortEntries_head _ _ _ Hs2) as [Hin' Hmin'].
    rewrite sortEntries_Permutation in Hin'.
    apply Huniq; [done |].
    rewrite Forall_forall in Hmin'. apply Hmin'.
    rewrite sortEntries_Permutation. done.
Qed.

(** X18.  A second click on the same queue raises.  After a removal within
    reach, the queue still holds the hit on the removed block; if that hit
    alone is nearest and no traversal has refilled the queue, another right
    click or a left click finds the collision node without its ['owner'] tag
    and raises [AttributeError]. *)
Theorem stale_hit_raises
    (g : MyGame) (e : CollisionEntry) (n : NodeId) (b : BlockNode) :
  nearest g = Some e →
  (∀ e', e' ∈ rayQueue g → entry_dist e' <= entry_dist e → e' = e) →
  getPythonTag (into_node e) (scene g) = Some n →
  find_node n (scene g) = Some b →
  distance_lt (node_pos b) (cam_pos (camera g)) 12 = true →
  ∃ g', removeBlock g = Ok g'
    ∧ removeBlock g' = Raise AttributeError
    ∧ placeBlock g' = Raise AttributeError
    ∧ throw "mouse3" g' = Raise AttributeError
    ∧ throw "mouse1" g' = Raise AttributeError.
Proof.
  intros He Huniq Hn Hb Hd.
  rewrite (removeBlock_hit g e n b He Hn Hb), Hd.
  eexists. split; [reflexivity |].
  set (g' := set_scene _ _).
  assert (nearest g' = Some e) as He'
    by exact (nearest_sorted_queue g e He Huniq).
  assert (∀ g2, nearest g2 = Some e →
            getPythonTag (into_node e) (scene g2) = None →
            removeBlock g2 = Raise AttributeError
            ∧ placeBlock g2 = Raise AttributeError) as Hraise.
  { intros g2 He2 Htag.
    destruct (nearest_cons _ _ He2) as (rest & Hs).
    pose proof (nearest_nonempty _ _ He2) as Hq.
    unfold removeBlock, placeBlock.
    destruct (decide _) as [_ | Hlen].
    2: { destruct (rayQueue g2); [done | simpl in Hlen; lia]. }
    unfold getEntry. simpl. rewrite Hs. simpl. by rewrite Htag. }
  assert (getPythonTag (into_node e) (scene g') = None) as Htag
    by apply lookup_delete_eq.
  destruct (Hraise g' He' Htag) as [Hr Hp].
  split_and!; [done | done | | by rewrite throw_mouse1].
  rewrite throw_mouse3. unfold handleLeftClick.
  by apply (Hraise (captureMouse g')).
Qed.

Lemma stale_hit_raises_witness :
  ∃ g', removeBlock (stack_world 10) = Ok g'
    ∧ removeBlock g' = Raise AttributeError
    ∧ placeBlock g' = Raise AttributeError.
Proof.
  destruct (stale_hit_raises (stack_world 10) (top_hit 10) 0%nat dirt_block)
    as (g' & Hr & Hr2 & Hp2 & _).
  - vm_compute. reflexivity.
  - intros e' Hin Hle.
    apply elem_of_cons in Hin as [-> | Hin];
      [vm_compute in Hle; by destruct Hle |].
    apply elem_of_cons in Hin as [-> | Hin]; [reflexivity |].
    by apply elem_of_nil in Hin.
  - vm_compute. reflexivity.
  - vm_compute. reflexivity.
  - vm_compute. reflexivity.
  - exists g'. exact (conj Hr (conj Hr2 Hp2)).
Defined.

(** ** Creating a block, and taking it away again *)

Lemma scene_ok_fresh_tag sg c :
  scene_ok sg → (next_node sg ≤ c)%nat → owner_tag sg !! c = None.
Proof.
  intros Hok Hc. destruct (owner_tag sg !! c) as [n |] eqn:Htag; [| done].
  destruct (scene_ok_tag _ _ _ Hok Htag) as [Hlt _]. lia.
Qed.

(** X19.  [createNewBlock] registers the new block without disturbing the
    others.  On a consistent scene, the new block can be looked up by its
    identity, its collision node carries the ['owner'] tag naming it, every
    block and every tag that was there before is found as before, and the
    scene is consistent again. *)
Theorem createNewBlock_registers_block
    (x y z : Q) (t : BlockType) (g : MyGame) :
  scene_ok (scene g) →
  getPythonTag (S (next_node (scene g))) (scene (createNewBlock x y z t g))
    = Some (next_node (scene g))
  ∧ find_node (next_node (scene g)) (scene (createNewBlock x y z t g))
    = Some {| node_pos := V3 x y z;
              node_hpr := if decide (t = grass) then V3 0 90 0 else V3 0 0 0;
              node_model := t;
              node_collider := S (next_node (scene g)) |}
  ∧ (∀ n b, find_node n (scene g) = Some b →
            find_node n (scene (createNewBlock x y z t g)) = Some b)
  ∧ (∀ c n, getPythonTag c (scene g) = Some n →
            getPythonTag c (scene (createNewBlock x y z t g)) = Some n)
  ∧ length (render (scene (createNewBlock x y z t g)))
    = S (length (render (scene g)))
  ∧ scene_ok (scene (createNewBlock x y z t g)).
Proof.
  intros Hok.
  assert (scene_ok (scene (createNewBlock x y z t g))) as Hok'
    by (by apply scene_ok_attachBlock).
  split_and!.
  - apply lookup_insert_eq.
  - apply find_node_elem; [apply Hok' |]. simpl.
    apply elem_of_app. right. apply list_elem_of_singleton. reflexivity.
  - intros n b Hb. apply find_node_elem; [apply Hok' |]. simpl.
    apply elem_of_app. left. by apply find_node_elem; [apply Hok |].
  - intros c n Hc. unfold getPythonTag in *. simpl.
    rewrite lookup_insert_ne; [done |]. intros <-.
    rewrite scene_ok_fresh_tag in Hc; [done | done | lia].
  - simpl. rewrite length_app. simpl. lia.
  - exact Hok'.
Qed.

Lemma createNewBlock_registers_block_witness :
  find_node 4%nat (scene (createNewBlock 0 0 2 sand (stack_world 10)))
  = Some {| node_pos := V3 0 0 2; node_hpr := V3 0 0 0;
            node_model := sand; node_collider := 5%nat |}
  ∧ find_node 0%nat (scene (createNewBlock 0 0 2 sand (stack_world 10)))
    = Some dirt_block.
Proof.
  destruct (createNewBlock_registers_block 0 0 2 sand (stack_world 10))
    as (_ & Hnew & Hold & _).
  - apply (bool_decide_unpack _). vm_compute. exact I.
  - split; [exact Hnew |]. apply Hold. vm_compute. reflexivity.
Defined.

Lemma createNewBlock_undo x y z t g :
  scene_ok (scene g) →
  getPythonTag (S (next_node (scene g))) (scene (createNewBlock x y z t g))
    = Some (next_node (scene g))
  ∧ find_node (next_node (scene g)) (scene (createNewBlock x y z t g))
    = Some {| node_pos := V3 x y z;
              node_hpr := if decide (t = grass) then V3 0 90 0 else V3 0 0 0;
              node_model := t;
              node_collider := S (next_node (scene g)) |}
  ∧ filter (λ nb, nb.1 ≠ next_node (scene g))
      (render (scene (createNewBlock x y z t g)))
    = render (scene g)
  ∧ delete (S (next_node (scene g)))
      (owner_tag (scene (createNewBlock x y z t g)))
    = owner_tag (scene g).
Proof.
  intros Hok.
  assert (scene_ok (scene (createNewBlock x y z t g))) as Hok'
    by (by apply scene_ok_attachBlock).
  split_and!.
  - apply lookup_insert_eq.
  - apply find_node_elem; [apply Hok' |]. simpl.
    apply elem_of_app. right. apply list_elem_of_singleton. reflexivity.
  - simpl. rewrite filter_app, filter_cons_False by (simpl; by intros ?).
    rewrite filter_nil, app_nil_r. apply filter_keeps_all.
    apply Forall_forall. intros [n b] Hin. simpl.
    destruct (scene_ok_elem _ _ _ Hok Hin) as [Hlt _]. lia.
  - simpl. rewrite delete_insert_eq. apply delete_id.
    apply scene_ok_fresh_tag; [done | lia].
Qed.

(** X20.  Placing a block and then removing it restores the world.  On a
    consistent scene, after a placement within reach and a traversal whose
    nearest hit is the new block's collision node, a removal (the new block
    being within 12 units of the camera) leaves exactly the blocks and the
    tags that were there before the placement. *)
Theorem place_then_remove_round_trip
    (g : MyGame) (e : CollisionEntry) (n : NodeId) (b : BlockNode)
    (q' : list CollisionEntry) (e' : CollisionEntry) :
  scene_ok (scene g) →
  nearest g = Some e →
  getPythonTag (into_node e) (scene g) = Some n →
  find_node n (scene g) = Some b →
  distance_lt (node_pos b) (cam_pos (camera g)) 14 = true →
  head (sortEntries q') = Some e' →
  into_node e' = S (next_node (scene g)) →
  distance_lt (vadd (node_pos b) (vscale (surface_normal e) 2))
    (cam_pos (camera g)) 12 = true →
  ∃ g1 g2,
    placeBlock g = Ok g1
    ∧ removeBlock (set_rayQueue q' g1) = Ok g2
    ∧ length (render (scene g1)) = S (length (render (scene g)))
    ∧ render (scene g2) = render (scene g)
    ∧ owner_tag (scene g2) = owner_tag (scene g)
    ∧ block_views g2 = block_views g.
Proof.
  intros Hok He Hn Hb Hd He' Hinto Hd'.
  rewrite (placeBlock_hit g e n b He Hn Hb), Hd. cbv zeta.
  set (p := vadd (node_pos b) (vscale (surface_normal e) 2)) in *.
  set (g1 := createNewBlock (vx p) (vy p) (vz p) (selectedBlockType g)
               (sorted_queue g)).
  destruct (createNewBlock_undo (vx p) (vy p) (vz p) (selectedBlockType g)
              (sorted_queue g) Hok) as (Htag1 & Hfind1 & Hrender & Htags).
  fold g1 in Htag1, Hfind1, Hrender, Htags.
  assert (getPythonTag (into_node e') (scene (set_rayQueue q' g1))
          = Some (next_node (scene g))) as Htag2
    by (rewrite Hinto; exact Htag1).
  pose proof (removeBlock_hit (set_rayQueue q' g1) e' (next_node (scene g)) _
                He' Htag2 Hfind1) as Hrem.
  change (distance_lt _ _ 12) with (distance_lt p (cam_pos (camera g)) 12)
    in Hrem.
  rewrite Hd' in Hrem.
  eexists _, _. split; [reflexivity |]. split; [exact Hrem |].
  assert (render (scene g1) = render (scene g) ++ _) as Hr1 by reflexivity.
  split_and!.
  - rewrite Hr1, length_app. simpl. lia.
  - exact Hrender.
  - rewrite Hinto. exact Htags.
  - unfold block_views. f_equal. exact Hrender.
Qed.

Lemma place_then_remove_round_trip_witness :
  ∃ g1 g2,
    placeBlock (stack_world 10) = Ok g1
    ∧ removeBlock
        (set_rayQueue
           [{| into_node := 5%nat; surface_normal := V3 0 0 1;
               entry_dist := 7 |}; top_hit 10] g1) = Ok g2
    ∧ block_views g2 = block_views (stack_world 10).
Proof.
  destruct (place_then_remove_round_trip (stack_world 10) (top_hit 10) 0%nat
              dirt_block
              [{| into_node := 5%nat; surface_normal := V3 0 0 1;
                  entry_dist := 7 |}; top_hit 10]
              {| into_node := 5%nat; surface_normal := V3 0 0 1;
                 entry_dist := 7 |})
    as (g1 & g2 & Hp & Hr & _ & _ & _ & Hv).
  - apply (bool_decide_unpack _). vm_compute. exact I.
  - vm_compute. reflexivity.
  - vm_compute. reflexivity.
  - vm_compute. reflexivity.
  - vm_compute. reflexivity.
  - vm_compute. reflexivity.
  - reflexivity.
  - vm_compute. reflexivity.
  - exists g1, g2. exact (conj Hp (conj Hr Hv)).
Defined.

(** ** The order of the queue, and the size of the world *)

Lemma unique_nearest_head q1 q2 e :
  q1 ≡ₚ q2 →
  head (sortEntries q1) = Some e →
  (∀ e', e' ∈ q1 → entry_dist e' <= entry_dist e → e' = e) →
  head (sortEntries q2) = Some e.
Proof.
  intros Hperm He Huniq.
  destruct (sortEntries q1) as [| e1 rest1] eqn:Hs1; [done |].
  injection He as ->.
  destruct (sortEntries_head _ _ _ Hs1) as [Hin _].
  destruct (sortEntries q2) as [| e2 rest2] eqn:Hs2.
  - apply (proj1 (sortEntries_nil_iff _)) in Hs2. subst q2.
    apply Permutation_nil_r in Hperm. subst q1. by apply elem_of_nil in Hin.
  - simpl. f_equal. destruct (sortEntries_head _ _ _ Hs2) as [Hin2 Hmin2].
    apply Huniq; [by rewrite Hperm |].
    rewrite Forall_forall in Hmin2. apply Hmin2. by rewrite <- Hperm.
Qed.

(** X21.  The order in which the traverser reports hits does not matter:
    when one hit is strictly nearer than all others, two states that differ
    only in the order of their queues give clicks with the same effect on
    the scene. *)
Theorem report_order_is_irrelevant
    (g : MyGame) (q : list CollisionEntry) (e : CollisionEntry) :
  rayQueue g ≡ₚ q →
  nearest g = Some e →
  (∀ e', e' ∈ rayQueue g → entry_dist e' <= entry_dist e → e' = e) →
  nearest (set_rayQueue q g) = Some e
  ∧ scene <$> removeBlock (set_rayQueue q g) = scene <$> removeBlock g
  ∧ scene <$> placeBlock (set_rayQueue q g) = scene <$> placeBlock g.
Proof.
  intros Hperm He Huniq.
  assert (nearest (set_rayQueue q g) = Some e) as He2
    by exact (unique_nearest_head _ _ _ Hperm He Huniq).
  split; [exact He2 |].
  destruct (nearest_cons _ _ He) as (rest & Hs).
  destruct (nearest_cons _ _ He2) as (rest2 & Hs2). simpl in Hs2.
  pose proof (nearest_nonempty _ _ He) as Hq.
  pose proof (nearest_nonempty _ _ He2) as Hq2. simpl in Hq2.
  unfold removeBlock, placeBlock, getEntry, nodePos. simpl.
  destruct (decide (0 < length q)%nat) as [_ | Hlen];
    [| destruct q; [done | simpl in Hlen; lia]].
  destruct (decide (0 < length (rayQueue g))%nat) as [_ | Hlen];
    [| destruct (rayQueue g); [done | simpl in Hlen; lia]].
  rewrite Hs, Hs2. simpl.
  destruct (getPythonTag (into_node e) (scene g)) as [n |]; [| done]. simpl.
  destruct (find_node n (scene g)) as [b |]; [| done]. simpl.
  split; by destruct (distance_lt _ _ _).
Qed.

Lemma report_order_is_irrelevant_witness :
  scene <$> removeBlock
              (set_rayQueue
                 [top_hit 10;
                  {| into_node := 3%nat; surface_normal := V3 0 0 1;
                     entry_dist := 10 + 1 |}]
                 (stack_world 10))
  = scene <$> removeBlock (stack_world 10).
Proof.
  destruct (report_order_is_irrelevant (stack_world 10)
              [top_hit 10;
               {| into_node := 3%nat; surface_normal := V3 0 0 1;
                  entry_dist := 10 + 1 |}]
              (top_hit 10)) as (_ & Hr & _).
  - apply Permutation_swap.
  - vm_compute. reflexivity.
  - intros e' Hin Hle.
    apply elem_of_cons in Hin as [-> | Hin];
      [vm_compute in Hle; by destruct Hle |].
    apply elem_of_cons in Hin as [-> | Hin]; [reflexivity |].
    by apply elem_of_nil in Hin.
  - exact Hr.
Defined.

Lemma only_clicks_scene_step M i g g' :
  is_click i = false → step M i g = Ok g' → scene g' = scene g.
Proof.
  intros Hi Hstep.
  destruct i as [name | | | dt | x y | q]; simpl in Hstep.
  - simpl in Hi. apply bool_decide_eq_false_1 in Hi.
    apply (throw_keeps_scene name); [naive_solver | naive_solver | done].
  - injection Hstep as <-. unfold toggleMenu. by destruct (menuActive g).
  - done.
  - by destruct (update_cases _ _ _ _ Hstep) as [[_ ->] | [_ [pos' ->]]];
      [| unfold frame_result; destruct (cameraSwingActivated g)].
  - by injection Hstep as <-.
  - by injection Hstep as <-.
Qed.

(** X22.  On a consistent scene every input changes the number of blocks by
    at most one, and only a click changes it at all: a left click adds one
    block or none, a right click removes one block or none. *)
Theorem world_size_changes_by_one
    (M : MathLib) (i : Input) (g g' : MyGame) :
  scene_ok (scene g) →
  step M i g = Ok g' →
  (length (render (scene g')) = length (render (scene g))
   ∨ (i = Event "mouse1"
      ∧ length (render (scene g')) = S (length (render (scene g))))
   ∨ (i = Event "mouse3"
      ∧ S (length (render (scene g'))) = length (render (scene g))))
  ∧ (is_click i = false →
     length (render (scene g')) = length (render (scene g))).
Proof.
  intros Hok Hstep.
  assert (is_click i = false → scene g' = scene g) as Hquiet.
  { intros Hi.
    apply (only_clicks_scene_step M i g g' Hi Hstep). }
  split; [| by intros ->%Hquiet].
  destruct (is_click i) eqn:Hi; [| left; by rewrite Hquiet].
  destruct i as [name | | | | |]; try done. simpl in Hi.
  apply bool_decide_eq_true_1 in Hi as [-> | ->]; simpl in Hstep.
  - rewrite throw_mouse1 in Hstep.
    apply placeBlock_scene in Hstep as [-> | [p ->]]; [by left |].
    right; left. split; [done |]. simpl. rewrite length_app. simpl. lia.
  - rewrite throw_mouse3 in Hstep. unfold handleLeftClick in Hstep.
    apply removeBlock_scene in Hstep as [-> | (n & c & Hc & ->)];
      [by left |].
    right; right. split; [done |]. simpl.
    destruct (scene_ok_tag _ _ _ Hok Hc) as (_ & b & Hb & _).
    apply (filter_out_one _ n b); [apply Hok | done].
Qed.

Lemma world_size_changes_by_one_witness :
  ∃ g', step heading0_math (Event "mouse3") (stack_world 10) = Ok g'
    ∧ length (render (scene g')) = 1%nat.
Proof.
  assert (∃ g', step heading0_math (Event "mouse3") (stack_world 10) = Ok g')
    as [g' Hstep] by (eexists; vm_compute; reflexivity).
  exists g'. split; [exact Hstep |].
  destruct (world_size_changes_by_one heading0_math (Event "mouse3")
              (stack_world 10) g') as [[Hsame | [[Hi _] | [_ Hless]]] _].
  - apply (bool_decide_unpack _). vm_compute. exact I.
  - exact Hstep.
  - assert (Ok g' = step heading0_math (Event "mouse3") (stack_world 10))
      as Hg by (symmetry; exact Hstep).
    vm_compute in Hg. injection Hg as ->. vm_compute in Hsame. discriminate.
  - discriminate Hi.
  - change (length (render (scene (stack_world 10)))) with 2%nat in Hless.
    by injection Hless.
Defined.
